(** * A shallow embedding of the single-file AI agent ([main.py])

    The development follows the structure of the Python program:

    - [Text]     : the operations on [str] the program uses ([in],
                   [str.replace], text-mode decoding, [sorted]);
    - [Py]       : the dynamic values produced by [json.loads], exceptions,
                   and the state-and-exception monad in which the methods run;
    - [Json]     : [json.loads];
    - [Os]       : the part of the POSIX file system that [open],
                   [os.path.exists], [os.listdir], [os.makedirs] observe;
    - the methods of [AIAgent]: [_execute_tool], [_read_file], [_list_files],
      [_edit_file] and [chat], under their own names.

    Conventions.  A Python [str] is represented by the Rocq [string] of its
    UTF-8 bytes (a lone surrogate, which only [json.loads] can produce here,
    by its three-byte generalised form).  Concatenation, emptiness, substring
    search, replacement and code-point ordering of [str] coincide with the
    same operations on these byte strings.  The platform is POSIX
    ([os.sep = "/"], [os.linesep = "\n"]).  The [logging] calls of the
    program are not part of the model. *)

From stdpp Require Import base tactics option list sorting gmap strings.
From Stdlib Require Import ZArith Ascii String.

Open Scope string_scope.

(** ** Text: the [str] operations used by the tools *)

Module Text.

Definition LF : ascii := "010"%char.
Definition CR : ascii := "013"%char.
Definition nl : string := String LF "".

(** [needle in hay] *)
Fixpoint contains (needle hay : string) : bool :=
  String.prefix needle hay
  || match hay with
     | "" => false
     | String _ hay' => contains needle hay'
     end.

(** The scanning loop of [str.replace] for a non-empty [old]: [skip] counts
    the characters of a match that are still to be dropped. *)
Fixpoint replace_go (old new s : string) (skip : nat) : string :=
  match s with
  | "" => ""
  | String c s' =>
      match skip with
      | S k => replace_go old new s' k
      | O =>
          if String.prefix old s
          then new +:+ replace_go old new s' (String.length old - 1)
          else String c (replace_go old new s' 0)
      end
  end.

(** [s.replace("", new)] puts [new] before every character and at the end;
    a character starts at every byte that is not a continuation byte. *)
Fixpoint intersperse (new s : string) : string :=
  match s with
  | "" => new
  | String c s' =>
      if ((128 <=? N_of_ascii c) && (N_of_ascii c <=? 191))%N
      then String c (intersperse new s')
      else new +:+ String c (intersperse new s')
  end.

(** [s.replace(old, new)] *)
Definition replace (old new s : string) : string :=
  match old with
  | "" => intersperse new s
  | _ => replace_go old new s 0
  end.

(** Universal-newlines translation of text-mode reading
    ([open(..., "r")] with the default [newline=None]): ["\r\n"] and a lone
    ["\r"] both become ["\n"]. *)
Fixpoint universal_newlines (s : string) : string :=
  match s with
  | "" => ""
  | String c s' =>
      if Ascii.eqb c CR then
        match s' with
        | String d s'' =>
            if Ascii.eqb d LF then String LF (universal_newlines s'')
            else String LF (universal_newlines s')
        | "" => String LF ""
        end
      else String c (universal_newlines s')
  end.

Fixpoint has_char (a : ascii) (s : string) : bool :=
  match s with
  | "" => false
  | String c s' => Ascii.eqb c a || has_char a s'
  end.

Definition bytes (s : string) : list N := N_of_ascii <$> list_ascii_of_string s.

Definition cont (b : N) : bool := (128 <=? b)%N && (b <=? 191)%N.
Definition between (lo hi b : N) : bool := (lo <=? b)%N && (b <=? hi)%N.

(** Well-formed UTF-8 as the strict ["utf-8"] codec accepts it: shortest
    forms only, no surrogates, nothing above U+10FFFF. *)
Fixpoint utf8_ok (l : list N) : bool :=
  match l with
  | [] => true
  | b0 :: r0 =>
      if (b0 <? 128)%N then utf8_ok r0
      else match r0 with
      | [] => false
      | b1 :: r1 =>
          if between 194 223 b0 then cont b1 && utf8_ok r1
          else match r1 with
          | [] => false
          | b2 :: r2 =>
              if between 224 239 b0 then
                (if (b0 =? 224)%N then between 160 191 b1
                 else if (b0 =? 237)%N then between 128 159 b1
                 else cont b1)
                && cont b2 && utf8_ok r2
              else match r2 with
              | [] => false
              | b3 :: r3 =>
                  between 240 244 b0
                  && (if (b0 =? 240)%N then between 144 191 b1
                      else if (b0 =? 244)%N then between 128 143 b1
                      else cont b1)
                  && cont b2 && cont b3 && utf8_ok r3
              end
          end
      end
  end.

Definition utf8_valid (s : string) : bool := utf8_ok (bytes s).

(** What the file-system encoding, ["utf-8"] with [surrogateescape], can
    encode: well-formed UTF-8 and, besides, the lone surrogates U+DC80 to
    U+DCFF (bytes 237, 178..179, 128..191 in the generalised form), which
    stand for the bytes 128 to 255.  Any other surrogate cannot be encoded. *)
Fixpoint fs_ok (l : list N) : bool :=
  match l with
  | [] => true
  | b0 :: r0 =>
      if (b0 <? 128)%N then fs_ok r0
      else match r0 with
      | [] => false
      | b1 :: r1 =>
          if between 194 223 b0 then cont b1 && fs_ok r1
          else match r1 with
          | [] => false
          | b2 :: r2 =>
              if between 224 239 b0 then
                (if (b0 =? 224)%N then between 160 191 b1
                 else if (b0 =? 237)%N then between 128 159 b1 || between 178 179 b1
                 else cont b1)
                && cont b2 && fs_ok r2
              else match r2 with
              | [] => false
              | b3 :: r3 =>
                  between 240 244 b0
                  && (if (b0 =? 240)%N then between 144 191 b1
                      else if (b0 =? 244)%N then between 128 143 b1
                      else cont b1)
                  && cont b2 && cont b3 && fs_ok r3
              end
          end
      end
  end.

Definition fs_encodable (s : string) : bool := fs_ok (bytes s).

(** Splitting on a separator character, as [s.split("/")]. *)
Fixpoint split_on (sep : ascii) (s : string) : list string :=
  match s with
  | "" => [""]
  | String c s' =>
      if Ascii.eqb c sep then "" :: split_on sep s'
      else match split_on sep s' with
           | [] => [String c ""]
           | w :: ws => String c w :: ws
           end
  end.

(** ["\n".join(items)] *)
Fixpoint join (sep : string) (items : list string) : string :=
  match items with
  | [] => ""
  | [x] => x
  | x :: rest => x +:+ sep +:+ join sep rest
  end.

(** [sorted(names)] on a list of [str]: ascending code-point order. *)
Definition sorted (names : list string) : list string :=
  merge_sort String.le names.

End Text.

(** ** Py: dynamic values, exceptions and the monad of the methods *)

Module Py.

(** The values [json.loads] can return.  A [dict] keeps its items in
    insertion order; a float keeps the text of its literal. *)
#[local] Unset Elimination Schemes.
Inductive pyval : Type :=
  | PNone
  | PBool (b : bool)
  | PInt (z : Z)
  | PFloat (literal : string)
  | PStr (s : string)
  | PList (items : list pyval)
  | PDict (items : list (string * pyval)).
#[local] Set Elimination Schemes.

Inductive errno : Type := ENOENT | ENOTDIR | EISDIR | EEXIST | ENAMETOOLONG.

(** The instances of [Exception] that can reach an [except] clause of the
    program.  [OSError ENOENT _] is [FileNotFoundError]; [ServiceError]
    stands for whatever exception the model-service client raises. *)
Inductive exn : Type :=
  | KeyError (key : string)
  | TypeError (what : string)
  | AttributeError (what : string)
  | ValueError (what : string)
  | UnicodeDecodeError
  | UnicodeEncodeError
  | JSONDecodeError (msg : string)
  | OSError (code : errno) (filename : string)
  | ServiceError (info : string).

Definition is_FileNotFoundError (e : exn) : bool :=
  match e with
  | OSError ENOENT _ => true
  | _ => false
  end.

Definition is_OSError (e : exn) : bool :=
  match e with
  | OSError _ _ => true
  | _ => false
  end.

(** [str(e)]: the text of an exception is fixed by the Python runtime and
    the operating system, not by the program; it is a parameter. *)
Class ExnStr := str_exn : exn -> string.

(** Result of running a piece of Python: a value, a raised exception, or
    [Beyond] where the run leaves what is modelled (an integer used as a
    file descriptor, the truth value of a float). *)
Inductive res (A : Type) : Type :=
  | Ret (a : A)
  | Raise (e : exn)
  | Beyond.
Arguments Ret {A} a.
Arguments Raise {A} e.
Arguments Beyond {A}.

(** State and exceptions; the state survives a raise. *)
Definition M (S A : Type) : Type := S -> res A * S.

Definition ret {S A} (a : A) : M S A := fun s => (Ret a, s).
Definition raise {S A} (e : exn) : M S A := fun s => (Raise e, s).
Definition beyond {S A} : M S A := fun s => (Beyond, s).
Definition lift {S A} (r : res A) : M S A := fun s => (r, s).

Definition bind {S A B} (m : M S A) (k : A -> M S B) : M S B :=
  fun s =>
    match m s with
    | (Ret a, s') => k a s'
    | (Raise e, s') => (Raise e, s')
    | (Beyond, s') => (Beyond, s')
    end.

(** [try: m  except Exception as e: handler(e)] *)
Definition try_except {S A} (m : M S A) (handler : exn -> M S A) : M S A :=
  fun s =>
    match m s with
    | (Raise e, s') => handler e s'
    | r => r
    end.

Definition get {S} : M S S := fun s => (Ret s, s).
Definition put {S} (s : S) : M S unit := fun _ => (Ret tt, s).

(** [bool(v)] *)
Definition truthy (v : pyval) : res bool :=
  match v with
  | PNone => Ret false
  | PBool b => Ret b
  | PInt z => Ret (negb (z =? 0)%Z)
  | PFloat _ => Beyond
  | PStr s => Ret (negb (String.eqb s ""))
  | PList l => Ret (match l with [] => false | _ => true end)
  | PDict l => Ret (match l with [] => false | _ => true end)
  end.

(** Items of a [dict] built from a JSON object: a repeated key keeps its
    last value. *)
Fixpoint dict_lookup (k : string) (items : list (string * pyval)) : option pyval :=
  match items with
  | [] => None
  | (k', v) :: rest =>
      match dict_lookup k rest with
      | Some v' => Some v'
      | None => if String.eqb k' k then Some v else None
      end
  end.

(** [v[k]] for a string key [k] *)
Definition subscript (v : pyval) (k : string) : res pyval :=
  match v with
  | PDict items =>
      match dict_lookup k items with
      | Some x => Ret x
      | None => Raise (KeyError k)
      end
  | _ => Raise (TypeError "subscript")
  end.

(** [v.get(k, default)] *)
Definition get_default (v : pyval) (k : string) (default : pyval) : res pyval :=
  match v with
  | PDict items => Ret (from_option id default (dict_lookup k items))
  | _ => Raise (AttributeError "get")
  end.

(** [f"{v}"] for a [str]; the program formats no other value. *)
Definition fmt (v : pyval) : res string :=
  match v with
  | PStr s => Ret s
  | _ => Beyond
  end.

End Py.

Export Py.

Notation "x <- m ;; k" := (Py.bind m (fun x => k))
  (at level 100, m at next level, right associativity).
Notation "m ;;; k" := (Py.bind m (fun _ => k))
  (at level 100, right associativity).

(** ** Os: the file system as the program observes it *)

Module Os.

(** A file holds its bytes.  Permissions, symbolic links, resource limits
    and open file descriptors are not modelled: every file can be read and
    written, every directory searched and extended. *)
Inductive node : Type :=
  | File (data : string)
  | Dir.

(** The tree is keyed by absolute locations (the names from the root down);
    the root is a directory. *)
Record world : Type := World {
  tree : gmap (list string) node;
  cwd : list string
}.

Definition node_at (w : world) (loc : list string) : option node :=
  match loc with
  | [] => Some Dir
  | _ => tree w !! loc
  end.

Definition set_node (loc : list string) (n : node) (w : world) : world :=
  World (<[loc := n]> (tree w)) (cwd w).

(** The limits of the system on the bytes of a name and of a path (the
    values of Linux; the path's count includes its terminator). *)
Definition NAME_MAX : nat := 255.
Definition PATH_MAX : nat := 4096.

(** Path resolution, one component at a time: every component, also [""],
    ["."] and [".."], is looked up in a directory; a directory holds no name
    longer than [NAME_MAX]. *)
Fixpoint walk (w : world) (cur comps : list string) : errno + list string :=
  match comps with
  | [] => inr cur
  | c :: rest =>
      match node_at w cur with
      | None => inl ENOENT
      | Some (File _) => inl ENOTDIR
      | Some Dir =>
          if String.eqb c "" || String.eqb c "." then walk w cur rest
          else if String.eqb c ".." then walk w (removelast cur) rest
          else if (NAME_MAX <? String.length c)%nat then inl ENAMETOOLONG
          else walk w (cur ++ [c]) rest
      end
  end.

Definition is_absolute (p : string) : bool := String.prefix "/" p.

Definition locate (w : world) (p : string) : errno + list string :=
  if String.eqb p "" then inl ENOENT
  else if (PATH_MAX <=? String.length p)%nat then inl ENAMETOOLONG
  else walk w (if is_absolute p then [] else cwd w) (Text.split_on "/" p).

(** The path argument of a file-system call, as the interpreter converts
    it: a [str] is encoded with the file-system encoding, which fails on a
    surrogate it cannot escape, and then refused if it holds a NUL. *)
Definition fspath (v : pyval) : res string :=
  match v with
  | PStr s =>
      if negb (Text.fs_encodable s) then Raise UnicodeEncodeError
      else if Text.has_char "000" s then Raise (ValueError "embedded null byte")
      else Ret s
  | PInt _ | PBool _ => Beyond
  | _ => Raise (TypeError "path")
  end.

(** Resolution of a path that has to exist. *)
Definition lookup_path (v : pyval) : M world (list string * node) :=
  p <- lift (fspath v) ;;
  fun w =>
    match locate w p with
    | inl code => (Raise (OSError code p), w)
    | inr loc =>
        match node_at w loc with
        | Some n => (Ret (loc, n), w)
        | None => (Raise (OSError ENOENT p), w)
        end
    end.

(** [except (OSError, ValueError): return False] *)
Definition os_or_value_error_is_false (e : exn) : M world bool :=
  match e with
  | OSError _ _ | ValueError _ | UnicodeDecodeError | UnicodeEncodeError
  | JSONDecodeError _ => ret false
  | _ => raise e
  end.

(** [os.path.exists(v)] *)
Definition exists_ (v : pyval) : M world bool :=
  try_except (_ <- lookup_path v ;; ret true) os_or_value_error_is_false.

(** [os.path.isdir(v)] *)
Definition isdir (v : pyval) : M world bool :=
  try_except
    (x <- lookup_path v ;;
     ret (match snd x with Dir => true | File _ => false end))
    os_or_value_error_is_false.

Definition children (w : world) (loc : list string) : list string :=
  omap (fun k : list string =>
          match last k with
          | Some name => if decide (removelast k = loc) then Some name else None
          | None => None
          end)
       (map_to_list (tree w)).*1.

(** [os.listdir(v)]; [None] lists the current directory. *)
Definition listdir (v : pyval) : M world (list string) :=
  let v := match v with PNone => PStr "." | _ => v end in
  x <- lookup_path v ;;
  match snd x with
  | Dir => fun w => (Ret (children w (fst x)), w)
  | File _ => p <- lift (fspath v) ;; raise (OSError ENOTDIR p)
  end.

(** [open(v, "r", encoding="utf-8")]; the handle is the file's location. *)
Definition open_read (v : pyval) : M world (list string) :=
  x <- lookup_path v ;;
  match snd x with
  | File _ => ret (fst x)
  | Dir => p <- lift (fspath v) ;; raise (OSError EISDIR p)
  end.

(** The text of a file's bytes: strict UTF-8 decoding, then universal
    newlines. *)
Definition decode (data : string) : option string :=
  if Text.utf8_valid data then Some (Text.universal_newlines data) else None.

(** [f.read()] in text mode. *)
Definition read (handle : list string) : M world string :=
  fun w =>
    match node_at w handle with
    | Some (File data) =>
        match decode data with
        | Some content => (Ret content, w)
        | None => (Raise UnicodeDecodeError, w)
        end
    | _ => (Beyond, w)
    end.

(** What a path names, if anything. *)
Definition file_at (w : world) (p : string) : option node :=
  match fspath (PStr p) with
  | Ret q =>
      match locate w q with
      | inr loc => node_at w loc
      | inl _ => None
      end
  | _ => None
  end.

Definition names_directory (c : string) : bool :=
  String.eqb c "" || String.eqb c "." || String.eqb c "..".

(** [open(v, "w", encoding="utf-8")]: the file is created, or truncated, when
    it is opened. *)
Definition open_write (v : pyval) : M world (list string) :=
  p <- lift (fspath v) ;;
  fun w =>
    match locate w p with
    | inl code => (Raise (OSError code p), w)
    | inr loc =>
        if names_directory (default "" (last (Text.split_on "/" p)))
        then (Raise (OSError EISDIR p), w)
        else match node_at w loc with
             | Some Dir => (Raise (OSError EISDIR p), w)
             | _ => (Ret loc, set_node loc (File "") w)
             end
    end.

(** [f.write(v)] followed by the close at the end of the [with] block. *)
Definition write (handle : list string) (v : pyval) : M world unit :=
  match v with
  | PStr text =>
      if Text.utf8_valid text
      then fun w => (Ret tt, set_node handle (File text) w)
      else raise UnicodeEncodeError
  | _ => raise (TypeError "write")
  end.

(** [os.path.join(a, b)] for a name [b] *)
Definition join (a : pyval) (b : string) : res string :=
  match a with
  | PStr a =>
      if String.prefix "/" b then Ret b
      else if String.eqb a "" || String.prefix "/" (String.rev a) then Ret (a +:+ b)
      else Ret (a +:+ "/" +:+ b)
  | _ => Raise (TypeError "join")
  end.

Fixpoint rstrip_slash (s : string) : string :=
  match s with
  | "" => ""
  | String c s' =>
      let r := rstrip_slash s' in
      if String.eqb r "" && Ascii.eqb c "/" then "" else String c r
  end.

(** [p[:i], p[i:]] for [i = p.rfind("/") + 1] *)
Fixpoint cut_last_slash (p : string) : string * string :=
  match p with
  | "" => ("", "")
  | String c p' =>
      let (h, t) := cut_last_slash p' in
      if negb (String.eqb h "") then (String c h, t)
      else if Ascii.eqb c "/" then ("/", t)
      else ("", String c t)
  end.

Definition strip_head (head : string) : string :=
  if String.eqb (rstrip_slash head) "" then head else rstrip_slash head.

(** [os.path.split(p)] *)
Definition split (p : string) : string * string :=
  let (h, t) := cut_last_slash p in (strip_head h, t).

(** [os.path.dirname(v)] *)
Definition dirname (v : pyval) : res string :=
  match v with
  | PStr p => Ret (fst (split p))
  | _ => Raise (TypeError "dirname")
  end.

(** [os.mkdir(p)]; trailing slashes do not count. *)
Definition mkdir (p : string) : M world unit :=
  _ <- lift (fspath (PStr p)) ;;
  fun w =>
    let q := strip_head p in
    match (if (PATH_MAX <=? String.length p)%nat then inl ENAMETOOLONG else locate w q) with
    | inl code => (Raise (OSError code p), w)
    | inr loc =>
        if names_directory (default "" (last (Text.split_on "/" q)))
        then (Raise (OSError EEXIST p), w)
        else match node_at w loc with
             | Some _ => (Raise (OSError EEXIST p), w)
             | None => (Ret tt, set_node loc Dir w)
             end
    end.

Definition is_FileExistsError (e : exn) : bool :=
  match e with
  | OSError EEXIST _ => true
  | _ => false
  end.

(** [os.makedirs(name, exist_ok=True)], as the standard library writes it;
    the recursion is on a proper prefix of [name]. *)
Fixpoint makedirs_go (fuel : nat) (name : string) : M world unit :=
  match fuel with
  | O => beyond
  | S fuel' =>
      let (head, tail) := split name in
      let (head, tail) := if String.eqb tail "" then split head else (head, tail) in
      finished <-
        (if negb (String.eqb head "") && negb (String.eqb tail "") then
           present <- exists_ (PStr head) ;;
           if present then ret false
           else
             try_except (makedirs_go fuel' head)
               (fun e => if is_FileExistsError e then ret tt else raise e) ;;;
             ret (String.eqb tail ".")
         else ret false) ;;
      if finished : bool then ret tt
      else
        try_except (mkdir name)
          (fun e =>
             if is_OSError e then
               d <- isdir (PStr name) ;;
               if d : bool then ret tt else raise e
             else raise e)
  end.

Definition makedirs (name : string) : M world unit :=
  makedirs_go (S (String.length name)) name.

End Os.

Export Os.

(** ** Json: [json.loads]

    The decoder of the standard library, in its default configuration.  The
    interpreter's recursion limit, which makes it raise on very deeply nested
    input, is not modelled. *)

Module Json.

Definition quote : ascii := "034"%char.
Definition backslash : ascii := "092"%char.

Definition is_ws (c : ascii) : bool :=
  Ascii.eqb c " " || Ascii.eqb c "009" || Ascii.eqb c Text.LF || Ascii.eqb c Text.CR.

Fixpoint skip_ws (s : string) : string :=
  match s with
  | String c s' => if is_ws c then skip_ws s' else s
  | "" => ""
  end.

Definition is_digit (c : ascii) : bool :=
  Text.between 48 57 (N_of_ascii c).

Fixpoint take_digits (s : string) : string * string :=
  match s with
  | String c s' =>
      if is_digit c then let (d, r) := take_digits s' in (String c d, r)
      else ("", s)
  | "" => ("", "")
  end.

Definition hex_val (c : ascii) : option N :=
  let n := N_of_ascii c in
  if Text.between 48 57 n then Some (n - 48)%N
  else if Text.between 65 70 n then Some (n - 55)%N
  else if Text.between 97 102 n then Some (n - 87)%N
  else None.

(** The four hexadecimal digits of a [\uXXXX] escape. *)
Definition hex4 (s : string) : option (N * string) :=
  match s with
  | String a (String b (String c (String d r))) =>
      match hex_val a, hex_val b, hex_val c, hex_val d with
      | Some x, Some y, Some z, Some t =>
          Some (((x * 16 + y) * 16 + z) * 16 + t, r)%N
      | _, _, _, _ => None
      end
  | _ => None
  end.

Definition chr (n : N) : string := String (ascii_of_N n) "".

(** The bytes of a code point (surrogates in the generalised form). *)
Definition utf8_encode (cp : N) : string :=
  if (cp <? 128)%N then chr cp
  else if (cp <? 2048)%N then
    chr (192 + cp / 64) +:+ chr (128 + cp mod 64)
  else if (cp <? 65536)%N then
    chr (224 + cp / 4096) +:+ chr (128 + (cp / 64) mod 64) +:+ chr (128 + cp mod 64)
  else
    chr (240 + cp / 262144) +:+ chr (128 + (cp / 4096) mod 64)
    +:+ chr (128 + (cp / 64) mod 64) +:+ chr (128 + cp mod 64).

Definition simple_escape (c : ascii) : option ascii :=
  if Ascii.eqb c quote then Some quote
  else if Ascii.eqb c backslash then Some backslash
  else if Ascii.eqb c "/" then Some "/"%char
  else if Ascii.eqb c "b" then Some "008"%char
  else if Ascii.eqb c "f" then Some "012"%char
  else if Ascii.eqb c "n" then Some Text.LF
  else if Ascii.eqb c "r" then Some Text.CR
  else if Ascii.eqb c "t" then Some "009"%char
  else None.

Definition error {A} (msg : string) : res A := Raise (JSONDecodeError msg).

Definition prepend (t : string) (r : res (string * string)) : res (string * string) :=
  match r with
  | Ret (u, rest) => Ret (t +:+ u, rest)
  | other => other
  end.

(** [scanstring]: the text after an opening quote, up to the closing one
    (strict mode: no raw control characters). *)
Fixpoint scanstring (fuel : nat) (s : string) : res (string * string) :=
  match fuel with
  | O => Beyond
  | S fuel' =>
      match s with
      | "" => error "Unterminated string starting at"
      | String c s' =>
          if Ascii.eqb c quote then Ret ("", s')
          else if Ascii.eqb c backslash then
            match s' with
            | "" => error "Unterminated string starting at"
            | String e s'' =>
                if Ascii.eqb e "u" then
                  match hex4 s'' with
                  | None => error "Invalid \uXXXX escape"
                  | Some (hi, r) =>
                      if Text.between 55296 56319 hi then
                        match r with
                        | String b1 (String b2 r2) =>
                            if Ascii.eqb b1 backslash && Ascii.eqb b2 "u" then
                              match hex4 r2 with
                              | None => error "Invalid \uXXXX escape"
                              | Some (lo, r3) =>
                                  if Text.between 56320 57343 lo then
                                    prepend
                                      (utf8_encode (65536 + (hi - 55296) * 1024 + (lo - 56320)))
                                      (scanstring fuel' r3)
                                  else prepend (utf8_encode hi) (scanstring fuel' r)
                              end
                            else prepend (utf8_encode hi) (scanstring fuel' r)
                        | _ => prepend (utf8_encode hi) (scanstring fuel' r)
                        end
                      else prepend (utf8_encode hi) (scanstring fuel' r)
                  end
                else
                  match simple_escape e with
                  | Some ch => prepend (String ch "") (scanstring fuel' s'')
                  | None => error "Invalid \\escape: "
                  end
            end
          else if (N_of_ascii c <? 32)%N then error "Invalid control character at"
          else prepend (String c "") (scanstring fuel' s')
      end
  end.

Fixpoint digits_value (acc : Z) (ds : string) : Z :=
  match ds with
  | "" => acc
  | String c ds' => digits_value (acc * 10 + Z.of_N (N_of_ascii c - 48)) ds'
  end.

(** [int(text)]: the interpreter refuses more than 4300 digits. *)
Definition parse_int (negative : bool) (ds : string) : res pyval :=
  if (4300 <? String.length ds)%nat then Raise (ValueError "Exceeds the limit (4300 digits) for integer string conversion")
  else Ret (PInt (if negative then - digits_value 0 ds else digits_value 0 ds)).

(** [NUMBER_RE]: an optional minus sign, then [0] or a digit string that
    does not start with [0]; an optional fraction (a dot and digits); an
    optional exponent ([e] or [E], an optional sign, digits). *)
Definition match_number (s : string) : option (res pyval * string) :=
  let (negative, s1) :=
    match s with
    | String "-" r => (true, r)
    | _ => (false, s)
    end in
  let sign := if negative then "-" else "" in
  match s1 with
  | String c r =>
      if is_digit c then
        let (int_part, s2) :=
          if Ascii.eqb c "0" then ("0", r) else take_digits s1 in
        let (frac, s3) :=
          match s2 with
          | String "." r2 =>
              match take_digits r2 with
              | ("", _) => ("", s2)
              | (ds, r3) => ("." +:+ ds, r3)
              end
          | _ => ("", s2)
          end in
        let (exp, s4) :=
          match s3 with
          | String e r3 =>
              if Ascii.eqb e "e" || Ascii.eqb e "E" then
                let (sg, r4) :=
                  match r3 with
                  | String "+" r5 => ("+", r5)
                  | String "-" r5 => ("-", r5)
                  | _ => ("", r3)
                  end in
                match take_digits r4 with
                | ("", _) => ("", s3)
                | (ds, r6) => (String e (sg +:+ ds), r6)
                end
              else ("", s3)
          | "" => ("", s3)
          end in
        if String.eqb frac "" && String.eqb exp "" then Some (parse_int negative int_part, s4)
        else Some (Ret (PFloat (sign +:+ int_part +:+ frac +:+ exp)), s4)
      else None
  | "" => None
  end.

Definition after (word s : string) : option string :=
  if String.prefix word s
  then Some (String.substring (String.length word) (String.length s - String.length word) s)
  else None.

(** [scan_once] with [JSONObject] and [JSONArray]; [object_items] and
    [array_items] are their [while True] loops, entered after the opening
    bracket and the white space behind it. *)
Fixpoint scan_once (fuel : nat) (s : string) : res (pyval * string) :=
  match fuel with
  | O => Beyond
  | S fuel' =>
      match s with
      | "" => error "Expecting value"
      | String c s' =>
          if Ascii.eqb c quote then
            match scanstring (S (String.length s')) s' with
            | Ret (t, r) => Ret (PStr t, r)
            | Raise e => Raise e
            | Beyond => Beyond
            end
          else if Ascii.eqb c "{" then
            match skip_ws s' with
            | String "}" r => Ret (PDict [], r)
            | r => object_items fuel' [] r
            end
          else if Ascii.eqb c "[" then
            match skip_ws s' with
            | String "]" r => Ret (PList [], r)
            | r => array_items fuel' [] r
            end
          else
            match after "null" s, after "true" s, after "false" s with
            | Some r, _, _ => Ret (PNone, r)
            | _, Some r, _ => Ret (PBool true, r)
            | _, _, Some r => Ret (PBool false, r)
            | None, None, None =>
                match match_number s with
                | Some (Ret v, r) => Ret (v, r)
                | Some (Raise e, _) => Raise e
                | Some (Beyond, _) => Beyond
                | None =>
                    match after "NaN" s, after "Infinity" s, after "-Infinity" s with
                    | Some r, _, _ => Ret (PFloat "NaN", r)
                    | _, Some r, _ => Ret (PFloat "Infinity", r)
                    | _, _, Some r => Ret (PFloat "-Infinity", r)
                    | None, None, None => error "Expecting value"
                    end
                end
            end
      end
  end
with object_items (fuel : nat) (acc : list (string * pyval)) (s : string)
    : res (pyval * string) :=
  match fuel with
  | O => Beyond
  | S fuel' =>
      match s with
      | String q s1 =>
          if Ascii.eqb q quote then
            match scanstring (S (String.length s1)) s1 with
            | Ret (key, s2) =>
                match skip_ws s2 with
                | String ":" s3 =>
                    match scan_once fuel' (skip_ws s3) with
                    | Ret (v, s4) =>
                        match skip_ws s4 with
                        | String "}" r => Ret (PDict (acc ++ [(key, v)]), r)
                        | String "," r => object_items fuel' (acc ++ [(key, v)]) (skip_ws r)
                        | _ => error "Expecting ',' delimiter"
                        end
                    | other => other
                    end
                | _ => error "Expecting ':' delimiter"
                end
            | Raise e => Raise e
            | Beyond => Beyond
            end
          else error "Expecting property name enclosed in double quotes"
      | "" => error "Expecting property name enclosed in double quotes"
      end
  end
with array_items (fuel : nat) (acc : list pyval) (s : string)
    : res (pyval * string) :=
  match fuel with
  | O => Beyond
  | S fuel' =>
      match scan_once fuel' s with
      | Ret (v, s1) =>
          match skip_ws s1 with
          | String "]" r => Ret (PList (acc ++ [v]), r)
          | String "," r => array_items fuel' (acc ++ [v]) (skip_ws r)
          | _ => error "Expecting ',' delimiter"
          end
      | other => other
      end
  end.

Definition bom : string := chr 239 +:+ chr 187 +:+ chr 191.

(** [json.loads(s)] for a [str] *)
Definition loads (s : string) : res pyval :=
  if String.prefix bom s then error "Unexpected UTF-8 BOM (decode using utf-8-sig)"
  else
    match scan_once (S (String.length s)) (skip_ws s) with
    | Ret (v, rest) =>
        match skip_ws rest with
        | "" => Ret v
        | _ => error "Extra data"
        end
    | Raise e => Raise e
    | Beyond => Beyond
    end.

End Json.

(** ** The tools of [AIAgent] *)

Section Tools.
Context {exn_text : ExnStr}.

(** [old_text in content] *)
Definition py_in (old_text : pyval) (content : string) : res bool :=
  match old_text with
  | PStr o => Ret (Text.contains o content)
  | _ => Raise (TypeError "in")
  end.

(** [content.replace(old_text, new_text)] *)
Definition py_replace (content : string) (old_text new_text : pyval) : res string :=
  match old_text, new_text with
  | PStr o, PStr n => Ret (Text.replace o n content)
  | _, _ => Raise (TypeError "replace")
  end.

Definition _read_file (path : pyval) : M world string :=
  try_except
    (f <- open_read path ;;
     content <- read f ;;
     p <- lift (fmt path) ;;
     ret ("File contents of " +:+ p +:+ ":" +:+ Text.nl +:+ content))
    (fun e =>
       if is_FileNotFoundError e then
         p <- lift (fmt path) ;;
         ret ("File not found: " +:+ p)
       else ret ("Error reading file: " +:+ str_exn e)).

(** The [for item in ...] loop of [_list_files]. *)
Fixpoint list_items (path : pyval) (names : list string) : M world (list string) :=
  match names with
  | [] => ret []
  | item :: rest =>
      item_path <- lift (join path item) ;;
      d <- isdir (PStr item_path) ;;
      items <- list_items path rest ;;
      ret ((if d : bool then "[DIR]  " +:+ item +:+ "/" else "[FILE] " +:+ item) :: items)
  end.

Definition _list_files (path : pyval) : M world string :=
  try_except
    (present <- exists_ path ;;
     if negb present then
       p <- lift (fmt path) ;;
       ret ("Path not found: " +:+ p)
     else
       names <- listdir path ;;
       items <- list_items path (Text.sorted names) ;;
       p <- lift (fmt path) ;;
       match items with
       | [] => ret ("Empty directory: " +:+ p)
       | _ => ret ("Contents of " +:+ p +:+ ":" +:+ Text.nl +:+ Text.join Text.nl items)
       end)
    (fun e => ret ("Error listing files: " +:+ str_exn e)).

Definition _edit_file (path old_text new_text : pyval) : M world string :=
  try_except
    (present <- exists_ path ;;
     replacing <- (if present : bool then lift (truthy old_text) else ret false) ;;
     if replacing : bool then
       f <- open_read path ;;
       content <- read f ;;
       found <- lift (py_in old_text content) ;;
       if negb found then
         o <- lift (fmt old_text) ;;
         ret ("Text not found in file: " +:+ o)
       else
         content <- lift (py_replace content old_text new_text) ;;
         f <- open_write path ;;
         write f (PStr content) ;;;
         p <- lift (fmt path) ;;
         ret ("Successfully edited " +:+ p)
     else
       dir_name <- lift (dirname path) ;;
       (if negb (String.eqb dir_name "") then makedirs dir_name else ret tt) ;;;
       f <- open_write path ;;
       write f new_text ;;;
       p <- lift (fmt path) ;;
       ret ("Successfully created " +:+ p))
    (fun e => ret ("Error editing file: " +:+ str_exn e)).

Definition _execute_tool (tool_name : string) (tool_input : pyval) : M world string :=
  try_except
    (if String.eqb tool_name "read_file" then
       path <- lift (subscript tool_input "path") ;;
       _read_file path
     else if String.eqb tool_name "list_files" then
       path <- lift (subscript tool_input "path") ;;
       given <- lift (truthy path) ;;
       _list_files (if given : bool then path else PStr ".")
     else if String.eqb tool_name "edit_file" then
       path <- lift (subscript tool_input "path") ;;
       old_text <- lift (get_default tool_input "old_text" (PStr "")) ;;
       new_text <- lift (subscript tool_input "new_text") ;;
       _edit_file path old_text new_text
     else ret ("Unknown tool: " +:+ tool_name))
    (fun e => ret ("Error executing " +:+ tool_name +:+ ": " +:+ str_exn e)).

End Tools.

(** ** The conversation and the model service *)

(** An item of [response.output].  Every item has a [type]; the other fields
    are read only from items whose type is ["function_call"]; [arguments] is
    a [str] or [None]. *)
Record output_item : Type := Item {
  type : string;
  call_id : string;
  name : string;
  arguments : option string;
  text : string
}.

(** The entries of [self.input]. *)
Inductive turn : Type :=
  | UserMessage (user_input : string)
  | OutputItem (item : output_item)
  | FunctionCallOutput (call_id : string) (output : string).

(** [response.output], and [response.output_text] where the attribute exists. *)
Record response : Type := Response {
  output : list output_item;
  output_text : option string
}.

(** What [chat] passes to [client.responses.create]: the fields that vary
    between calls (the other parameters are constants of the program). *)
Record params : Type := Params {
  params_input : list turn;
  params_model : string;
  conversation_turn : nat;
  reasoning : bool
}.

Inductive reply : Type :=
  | Respond (r : response)
  | Fail (e : exn).

(** The model service: any deterministic state machine answering requests.
    It sees the conversation only through [params]. *)
Class Service : Type := {
  client : Type;
  create : client -> params -> reply * client
}.

Inductive event : Type :=
  | Request (p : params) (r : reply)
  | ToolRun (tool_name : string) (tool_input : pyval).

Definition is_request (ev : event) : bool :=
  match ev with
  | Request _ _ => true
  | ToolRun _ _ => false
  end.

(** The inputs of the service calls of a trace, in order. *)
Definition requests (evs : list event) : list (list turn) :=
  omap (fun ev => match ev with
                  | Request p _ => Some (params_input p)
                  | ToolRun _ _ => None
                  end) evs.

(** The tool executions of a trace, in order. *)
Definition tool_runs (evs : list event) : list (string * pyval) :=
  omap (fun ev => match ev with
                  | ToolRun n i => Some (n, i)
                  | Request _ _ => None
                  end) evs.

Section Chat.
Context {exn_text : ExnStr} {service : Service}.

(** The agent ([self.model], [self.input], [self.client]), the file system
    it works on, and the record of service calls and tool executions. *)
Record state : Type := State {
  model : string;
  input : list turn;
  session : client;
  files : world;
  trace : list event
}.

Definition extend_input (turns : list turn) : M state unit :=
  fun st => (Ret tt, State (model st) (input st ++ turns) (session st) (files st) (trace st)).

Definition record (ev : event) : M state unit :=
  fun st => (Ret tt, State (model st) (input st) (session st) (files st) (trace st ++ [ev])).

(** Running a tool on the agent's file system. *)
Definition on_files {A} (m : M world A) : M state A :=
  fun st =>
    let (r, w) := m (files st) in
    (r, State (model st) (input st) (session st) w (trace st)).

Definition _is_reasoning_model (m : string) : bool :=
  bool_decide (m ∈ ["gpt-5-mini"; "gpt-5"; "gpt-5-nano"; "o3-mini"; "o4-mini"; "o3"; "o4"]).

Definition is_user (t : turn) : bool :=
  match t with
  | UserMessage _ => true
  | _ => false
  end.

Definition make_params (st : state) : params :=
  Params (input st) (model st)
         (List.length (List.filter is_user (input st)))
         (_is_reasoning_model (model st)).

(** [self.client.responses.create], called with [params] *)
Definition responses_create : M state response :=
  fun st =>
    let p := make_params st in
    let (r, c) := create (session st) p in
    let st' := State (model st) (input st) c (files st) (trace st ++ [Request p r]) in
    match r with
    | Respond resp => (Ret resp, st')
    | Fail e => (Raise e, st')
    end.

Definition is_function_call (item : output_item) : bool :=
  String.eqb (type item) "function_call".

Definition keep_function_calls (items : list output_item) : list output_item :=
  List.filter is_function_call items.

(** [function_call.arguments or "{}"] *)
Definition arguments_or_empty (item : output_item) : string :=
  match arguments item with
  | Some a => if String.eqb a "" then "{}" else a
  | None => "{}"
  end.

(** The [for function_call in function_calls] loop. *)
Fixpoint run_function_calls (function_calls : list output_item) : M state (list turn) :=
  match function_calls with
  | [] => ret []
  | function_call :: rest =>
      tool_input <- lift (Json.loads (arguments_or_empty function_call)) ;;
      record (ToolRun (name function_call) tool_input) ;;;
      result <- on_files (_execute_tool (name function_call) tool_input) ;;
      function_results <- run_function_calls rest ;;
      ret (FunctionCallOutput (call_id function_call) result :: function_results)
  end.

(** One turn of the [while True] loop: [Some s] is [return s], [None] goes
    round again. *)
Definition iteration : M state (option string) :=
  try_except
    (response <- responses_create ;;
     extend_input (OutputItem <$> output response) ;;;
     match keep_function_calls (output response) with
     | [] => ret (Some (default "" (output_text response)))
     | function_calls =>
         function_results <- run_function_calls function_calls ;;
         match function_results with
         | [] => ret tt
         | _ => extend_input function_results
         end ;;;
         ret None
     end)
    (fun e => ret (Some ("Error: " +:+ str_exn e))).

(** How a call of [chat] ends: it returns a string, or it is still looping
    when the fuel is spent, or it left the model, or an exception escaped. *)
Inductive outcome : Type :=
  | Returned (s : string)
  | Looping
  | Unmodelled
  | Escaped (e : exn).

Fixpoint loop (fuel : nat) (st : state) : outcome * state :=
  match fuel with
  | O => (Looping, st)
  | S fuel' =>
      match iteration st with
      | (Ret (Some s), st') => (Returned s, st')
      | (Ret None, st') => loop fuel' st'
      | (Raise e, st') => (Escaped e, st')
      | (Beyond, st') => (Unmodelled, st')
      end
  end.

Definition chat (fuel : nat) (user_input : string) (st : state) : outcome * state :=
  loop fuel (State (model st) (input st ++ [UserMessage user_input])
                   (session st) (files st) (trace st)).

(** What a step may change besides the file system: it appends [turns] to the
    conversation and [evs] to the trace. *)
Definition grows (st st' : state) (turns : list turn) (evs : list event) : Prop :=
  model st' = model st
  /\ input st' = (input st ++ turns)%list
  /\ trace st' = (trace st ++ evs)%list.

End Chat.

(** [later] is [earlier] with at least one turn appended. *)
Definition extends (earlier later : list turn) : Prop :=
  earlier `prefix_of` later /\ (List.length earlier < List.length later)%nat.


(** One rendering of [str(e)], for the examples: CPython's text for a
    [KeyError] on a plain key and for an [OSError] on a plain file name;
    elsewhere the bare message, without the position or type name CPython
    adds. *)
Definition sample_str : ExnStr := fun e =>
  match e with
  | KeyError k => "'" +:+ k +:+ "'"
  | TypeError what | AttributeError what | ValueError what => what
  | UnicodeDecodeError => "'utf-8' codec can't decode"
  | UnicodeEncodeError => "'utf-8' codec can't encode"
  | JSONDecodeError msg => msg
  | OSError code f =>
      match code with
      | ENOENT => "[Errno 2] No such file or directory: '"
      | ENOTDIR => "[Errno 20] Not a directory: '"
      | EISDIR => "[Errno 21] Is a directory: '"
      | EEXIST => "[Errno 17] File exists: '"
      | ENAMETOOLONG => "[Errno 36] File name too long: '"
      end +:+ f +:+ "'"
  | ServiceError info => info
  end.

(** The directory of the listing example: [a.txt] and the subdirectory [b]. *)
Definition example_world : world :=
  World (list_to_map [(["a.txt"], File "hello"); (["b"], Dir)]) [].

(** A model-service stub that plays a script, one reply per call. *)
Definition scripted : Service :=
  {| client := list reply;
     create c _ :=
       match c with
       | r :: c' => (r, c')
       | [] => (Fail (ServiceError "script exhausted"), [])
       end |}.

Definition function_call_item (id tool : string) (args : option string) : output_item :=
  Item "function_call" id tool args "".

Definition message_item (t : string) : output_item :=
  Item "message" "" "" None t.

Definition fresh_agent (script : list reply) (w : world) : @state scripted :=
  State "gpt-4o-mini" [] (script : @client scripted) w [].

(** Scripts for the examples: a plain answer; a call of an undeclared tool
    followed by a failure of the service; a call whose arguments are not
    JSON. *)
Definition greeting : response :=
  Response [message_item "Hello! How can I help?"] (Some "Hello! How can I help?").

Definition unknown_call : response :=
  Response [function_call_item "call_1" "delete_file" None] (Some "").

Definition rate_limited : exn := ServiceError "Rate limit exceeded".

Definition malformed_call : response :=
  Response [function_call_item "call_1" "list_files" (Some "{")] (Some "").

(** A small project tree: [README.md], [src] with [main.py] and the
    directory [lib], the directory [empty], and [raw.bin], whose one byte is
    not UTF-8. *)
Definition project_world : world :=
  World (list_to_map [(["README.md"], File "# demo");
                      (["src"], Dir);
                      (["src"; "main.py"], File "print(1)");
                      (["src"; "lib"], Dir);
                      (["empty"], Dir);
                      (["raw.bin"], File (String "255" ""))]) [].

(** A directory with one file in the DOS convention: [a], CR, LF, [b]. *)
Definition dos_world : world :=
  World (list_to_map
           [(["dos.txt"], File (String "a" (String Text.CR (String Text.LF "b"))))]) [].

(** Paths the system refuses: the lone surrogate U+D800, and a name of 256
    bytes. *)
Definition lone_surrogate : string := Json.utf8_encode 55296.

Definition long_name : string := string_of_list_ascii (repeat "a"%char 256).

(** JSON text of an object whose members are strings. *)
Definition json_string (s : string) : string :=
  String Json.quote s +:+ String Json.quote "".

Definition json_object (members : list (string * string)) : string :=
  "{" +:+ Text.join ", " ((fun m => json_string m.1 +:+ ": " +:+ json_string m.2) <$> members)
      +:+ "}".

(** More scripts: a call of [read_file] and the answer that follows it; a
    call of [edit_file] followed, in the same response, by a call whose
    arguments are not JSON. *)
Definition read_call : response :=
  Response [function_call_item "call_1" "read_file" (Some (json_object [("path", "README.md")]))]
           (Some "").

Definition file_report : response :=
  Response [message_item "README.md holds a title."] (Some "README.md holds a title.").

Definition create_then_malformed : response :=
  Response [function_call_item "call_1" "edit_file"
              (Some (json_object [("path", "notes.txt"); ("new_text", "todo")]));
            function_call_item "call_2" "list_files" (Some "{")]
           (Some "").

(** ** The tool declarations *)

Module Declared.

(** [class Tool(BaseModel)]; [parameters] is a JSON-like [dict]. *)
Record Tool : Type := {
  type : string;
  name : string;
  description : string;
  parameters : pyval;
  strict : bool
}.

(** The names under ["required"] in a tool's [parameters]. *)
Definition required (t : Tool) : list string :=
  match parameters t with
  | PDict items =>
      match dict_lookup "required" items with
      | Some (PList keys) =>
          omap (fun k => match k with PStr s => Some s | _ => None end) keys
      | _ => []
      end
  | _ => []
  end.

End Declared.

Definition string_parameter (types : pyval) (text : string) : pyval :=
  PDict [("type", types); ("description", PStr text)].

Definition object_schema (properties : list (string * pyval)) (required : list string) : pyval :=
  PDict [("type", PStr "object");
         ("properties", PDict properties);
         ("required", PList (PStr <$> required));
         ("additionalProperties", PBool false)].

(** [self.tools] as [_setup_tools] builds it. *)
Definition _setup_tools : list Declared.Tool :=
  [ {| Declared.type := "function";
       Declared.name := "read_file";
       Declared.description := "Read the contents of a file at the specified path";
       Declared.parameters :=
         object_schema
           [("path", string_parameter (PStr "string") "The path to the file to read")]
           ["path"];
       Declared.strict := true |};
    {| Declared.type := "function";
       Declared.name := "list_files";
       Declared.description := "List all files and directories in the specified path";
       Declared.parameters :=
         object_schema
           [("path", string_parameter (PList [PStr "string"; PStr "null"])
                       "The directory path to list (defaults to current directory, use . for current directory)")]
           ["path"];
       Declared.strict := true |};
    {| Declared.type := "function";
       Declared.name := "edit_file";
       Declared.description :=
         "Edit a file by replacing old_text with new_text. Creates the file if it doesn't exist.";
       Declared.parameters :=
         object_schema
           [("path", string_parameter (PStr "string") "The path to the file to edit");
            ("old_text", string_parameter (PList [PStr "string"; PStr "null"])
                           "The text to search for and replace (leave empty to create new file)");
            ("new_text", string_parameter (PStr "string") "The text to replace old_text with")]
           ["path"; "old_text"; "new_text"];
       Declared.strict := true |} ].

(** ** Vocabulary of the further properties *)

(** A computation that leaves the file system as it found it. *)
Definition read_only {A} (m : M world A) : Prop := forall w, snd (m w) = w.

(** Every entry of the tree lies in a directory. *)
Definition well_formed (w : world) : bool :=
  forallb (fun loc => match node_at w (removelast loc) with
                      | Some Dir => true
                      | _ => false
                      end)
          (map_to_list (tree w)).*1.


(** A path that is one plain name: text (well-formed UTF-8) of at most
    [NAME_MAX] bytes, with no separator and no NUL, not empty, not [.] or
    [..]. *)
Definition plain_name (p : string) : bool :=
  negb (Text.has_char "/" p) && negb (Text.has_char "000" p)
  && negb (names_directory p)
  && Text.utf8_valid p && (String.length p <=? NAME_MAX)%nat.

(** The [call_id] of a [function_call_output] turn. *)
Definition answers (function_call : output_item) (t : turn) : Prop :=
  exists out, t = FunctionCallOutput (call_id function_call) out.

(** * Properties *)

(** ** Text *)

Lemma length_append (s t : string) :
  String.length (s +:+ t) = String.length s + String.length t.
Proof.
  induction s as [|c s IH]; [reflexivity|].
  change (String c s +:+ t) with (String c (s +:+ t)).
  cbn [String.length]. now rewrite IH.
Qed.

Lemma universal_newlines_no_cr (s : string) :
  Text.has_char Text.CR s = false -> Text.universal_newlines s = s.
Proof.
  induction s as [|c s IH]; [reflexivity|].
  cbn [Text.has_char Text.universal_newlines].
  intros [Hc Hs]%orb_false_iff. rewrite Hc. now rewrite IH.
Qed.


(** ** The monad *)

Lemma bind_ret_inv {S A B} (m : M S A) (k : A -> M S B) s b s' :
  bind m k s = (Ret b, s') ->
  exists a s1, m s = (Ret a, s1) /\ k a s1 = (Ret b, s').
Proof.
  unfold bind. destruct (m s) as [[a|e|] s1]; try discriminate. eauto.
Qed.

Lemma bind_eq {S A B} (m : M S A) (k : A -> M S B) s a s1 :
  m s = (Ret a, s1) -> bind m k s = k a s1.
Proof. unfold bind. now intros ->. Qed.

Lemma try_except_ret_inv {S A} (m : M S A) (h : exn -> M S A) s b s' :
  try_except m h s = (Ret b, s') ->
  m s = (Ret b, s') \/ exists e s1, m s = (Raise e, s1) /\ h e s1 = (Ret b, s').
Proof.
  unfold try_except. destruct (m s) as [[a|e|] s1]; try discriminate; eauto.
Qed.

Lemma lift_ret_inv {S A} (r : res A) (s s' : S) a :
  lift r s = (Ret a, s') -> r = Ret a /\ s' = s.
Proof. unfold lift. now intros [= -> ->]. Qed.

Lemma ret_inv {S A} (a b : A) (s s' : S) :
  ret a s = (Ret b, s') -> a = b /\ s' = s.
Proof. unfold ret. now intros [= -> ->]. Qed.

(** [bind_inv H a s Ha]: from [H : bind m k s0 = (Ret b, s')], the value [a]
    and state [s] that [m] produced ([Ha]), and [H] for the continuation. *)
Ltac bind_inv H a s Ha :=
  let H' := fresh in
  apply bind_ret_inv in H as (a & s & Ha & H'); rename H' into H.

(** ** The file system *)

Lemma node_at_set_node_eq w loc n :
  loc <> [] -> node_at (set_node loc n w) loc = Some n.
Proof.
  destruct loc as [|c loc]; [congruence|]. intros _.
  unfold node_at, set_node. cbn [tree]. apply lookup_insert_eq.
Qed.

Lemma node_at_set_node_ne w loc n q :
  q <> loc -> node_at (set_node loc n w) q = node_at w q.
Proof.
  destruct q as [|c q]; [reflexivity|]. intros Hne.
  unfold node_at, set_node. cbn [tree]. now apply lookup_insert_ne.
Qed.

(** A resolution that succeeds still succeeds, with the same result, in any
    world that keeps the directories. *)
Lemma walk_preserved w w' comps :
  (forall q, node_at w q = Some Dir -> node_at w' q = Some Dir) ->
  forall cur loc, walk w cur comps = inr loc -> walk w' cur comps = inr loc.
Proof.
  intros Hdir. induction comps as [|c rest IH]; intros cur loc; cbn [walk]; [tauto|].
  destruct (node_at w cur) as [[data|]|] eqn:Hcur; try discriminate.
  rewrite (Hdir _ Hcur).
  destruct (_ || _); [apply IH|]. destruct (String.eqb c ".."); [apply IH|].
  destruct (_ <? _)%nat; [discriminate|apply IH].
Qed.

Lemma locate_preserved w w' p loc :
  cwd w' = cwd w ->
  (forall q, node_at w q = Some Dir -> node_at w' q = Some Dir) ->
  locate w p = inr loc -> locate w' p = inr loc.
Proof.
  unfold locate. intros -> Hdir. destruct (String.eqb p ""); [discriminate|].
  destruct (_ <=? _)%nat; [discriminate|].
  now apply walk_preserved.
Qed.

(** A [str] that passes as a path passes unchanged. *)
Lemma fspath_str_inv p q :
  fspath (PStr p) = Ret q ->
  q = p /\ Text.fs_encodable p = true /\ Text.has_char "000" p = false.
Proof.
  cbn [fspath]. destruct (Text.fs_encodable p); [|discriminate].
  destruct (Text.has_char _ p); [discriminate|]. intros [= ->]. auto.
Qed.

Lemma open_write_inv p w loc w' :
  open_write (PStr p) w = (Ret loc, w') ->
  fspath (PStr p) = Ret p /\ locate w p = inr loc
  /\ node_at w loc <> Some Dir /\ w' = set_node loc (File "") w.
Proof.
  intros (q & w2 & [Hq ->]%lift_ret_inv & H)%bind_ret_inv.
  assert (q = p) as -> by (now apply fspath_str_inv in Hq).
  destruct (locate w p) as [code|l] eqn:Hloc; [discriminate|].
  destruct (names_directory _); [discriminate|].
  destruct (node_at w l) as [[data|]|] eqn:Hn; try discriminate;
    injection H as <- <-; repeat split; auto; congruence.
Qed.

Lemma write_inv handle v w w' :
  write handle v w = (Ret tt, w') ->
  exists text, v = PStr text /\ Text.utf8_valid text = true
               /\ w' = set_node handle (File text) w.
Proof.
  unfold write. destruct v; try discriminate.
  destruct (Text.utf8_valid s) eqn:Hv; [|discriminate].
  intros [= <-]. eauto.
Qed.

(** Writing a file and reading it back through the same path. *)
Lemma file_at_after_write p w loc text :
  open_write (PStr p) w = (Ret loc, set_node loc (File "") w) ->
  file_at (set_node loc (File text) (set_node loc (File "") w)) p = Some (File text).
Proof.
  intros (Hq & Hloc & Hnd & _)%open_write_inv.
  assert (loc <> []) as Hne by (intros ->; now apply Hnd).
  unfold file_at. rewrite Hq.
  rewrite (locate_preserved w _ p loc); [|reflexivity| |exact Hloc].
  - now apply node_at_set_node_eq.
  - intros q Hq'. destruct (decide (q = loc)) as [->|Hql]; [congruence|].
    now rewrite !node_at_set_node_ne.
Qed.

Lemma file_at_lookup_path w p n :
  file_at w p = Some n ->
  exists loc, lookup_path (PStr p) w = (Ret (loc, n), w)
              /\ locate w p = inr loc /\ node_at w loc = Some n
              /\ fspath (PStr p) = Ret p.
Proof.
  unfold file_at, lookup_path, bind, lift.
  destruct (fspath (PStr p)) as [q|e|] eqn:Hq; try discriminate.
  destruct (fspath_str_inv _ _ Hq) as (-> & _).
  destruct (locate w p) as [code|loc] eqn:Hloc; [discriminate|].
  intros Hn. exists loc. rewrite Hn. auto.
Qed.

Lemma file_at_exists w p n :
  file_at w p = Some n -> exists_ (PStr p) w = (Ret true, w).
Proof.
  intros (loc & Hl & _)%file_at_lookup_path.
  unfold exists_, try_except, bind. now rewrite Hl.
Qed.

Lemma file_at_open_read w p data :
  file_at w p = Some (File data) ->
  exists loc, open_read (PStr p) w = (Ret loc, w)
              /\ node_at w loc = Some (File data).
Proof.
  intros (loc & Hl & _ & Hn & _)%file_at_lookup_path.
  exists loc. unfold open_read, bind. now rewrite Hl.
Qed.

Lemma walk_here w cur c rest :
  node_at w cur = Some Dir -> c = "" \/ c = "." ->
  walk w cur (c :: rest) = walk w cur rest.
Proof. intros Hd [-> | ->]; cbn [walk]; now rewrite Hd. Qed.

Lemma walk_down w cur c rest :
  node_at w cur = Some Dir ->
  names_directory c = false ->
  (String.length c <= NAME_MAX)%nat ->
  walk w cur (c :: rest) = walk w (cur ++ [c]) rest.
Proof.
  unfold names_directory. intros Hd [[H1 H2]%orb_false_iff H3]%orb_false_iff Hlen.
  apply Nat.ltb_ge in Hlen.
  cbn [walk]. now rewrite Hd, H1, H2, H3, Hlen.
Qed.

Lemma file_at_isdir w p n :
  file_at w p = Some n ->
  isdir (PStr p) w = (Ret (match n with Dir => true | File _ => false end), w).
Proof.
  intros (loc & Hl & _)%file_at_lookup_path.
  unfold isdir, try_except, bind. now rewrite Hl.
Qed.

Lemma file_at_listdir w p loc :
  file_at w p = Some Dir -> locate w p = inr loc ->
  listdir (PStr p) w = (Ret (children w loc), w).
Proof.
  intros (loc' & Hl & Hloc & _)%file_at_lookup_path Hloc'.
  assert (loc' = loc) as -> by congruence.
  unfold listdir, bind. now rewrite Hl.
Qed.

Lemma sorted_two (l : list string) :
  l ≡ₚ ["a.txt"; "b"] -> Text.sorted l = ["a.txt"; "b"].
Proof.
  intros Hp. symmetry in Hp.
  apply Permutation_length_2_inv in Hp as [-> | ->]; now vm_compute.
Qed.

(** ** The tools *)

Section ToolProperties.
Context {exn_text : ExnStr}.

Lemma read_file_of_text w p data content :
  file_at w p = Some (File data) ->
  decode data = Some content ->
  _read_file (PStr p) w =
    (Ret ("File contents of " +:+ p +:+ ":" +:+ Text.nl +:+ content), w).
Proof.
  intros (loc & Ho & Hn)%file_at_open_read Hd.
  unfold _read_file, try_except, bind, read, lift, ret.
  rewrite Ho, Hn, Hd. reflexivity.
Qed.

(** C10.  A file at path [p] that can be read, with text content [C]:
    [read_file(p)] returns the header line ["File contents of <p>:"], a
    newline, then [C], and leaves the file system as it was; the result is
    never the bare content [C]. *)
Theorem read_file_prefixes_header w p data C :
  file_at w p = Some (File data) ->
  decode data = Some C ->
  _read_file (PStr p) w =
    (Ret ("File contents of " +:+ p +:+ ":" +:+ Text.nl +:+ C), w)
  /\ fst (_read_file (PStr p) w) <> Ret C.
Proof.
  intros Hf Hd. rewrite (read_file_of_text _ _ _ _ Hf Hd). split; [reflexivity|].
  cbn [fst]. intros [=Heq].
  apply (f_equal String.length) in Heq.
  rewrite !length_append in Heq. cbn in Heq. lia.
Qed.

(** C8.  A tool name other than [read_file], [list_files] and [edit_file],
    with any argument value: [_execute_tool] returns exactly
    ["Unknown tool: <name>"] (a value, not an exception) and does not touch
    the file system. *)
Theorem execute_unknown_tool tool_name tool_input w :
  tool_name <> "read_file" ->
  tool_name <> "list_files" ->
  tool_name <> "edit_file" ->
  _execute_tool tool_name tool_input w = (Ret ("Unknown tool: " +:+ tool_name), w).
Proof.
  intros H1%String.eqb_neq H2%String.eqb_neq H3%String.eqb_neq.
  unfold _execute_tool, try_except. rewrite H1, H2, H3. reflexivity.
Qed.

Lemma list_files_no_raise path w e : fst (_list_files path w) <> Raise e.
Proof.
  unfold _list_files, try_except.
  match goal with |- context [match ?m w with _ => _ end] => destruct (m w) as [[?|?|] ?] end;
    cbn; discriminate.
Qed.

(** C9, as the code has it.  When the [path] argument is present and is
    [None] or the empty string, [list_files] lists ["."]: the call is
    [_list_files(".")]. *)
Theorem execute_list_files_default tool_input path w :
  subscript tool_input "path" = Ret path ->
  path = PNone \/ path = PStr "" ->
  _execute_tool "list_files" tool_input w = _list_files (PStr ".") w.
Proof.
  intros Hs Hp. unfold _execute_tool. cbn [String.eqb Ascii.eqb Bool.eqb].
  unfold try_except at 1, bind at 1, lift at 1. rewrite Hs.
  assert (truthy path = Ret false) as Ht by (destruct Hp; subst; reflexivity).
  unfold bind, lift. rewrite Ht.
  pose proof (list_files_no_raise (PStr ".") w) as Hn.
  destruct (_list_files (PStr ".") w) as [[?|e|] ?]; try reflexivity.
  now destruct (Hn e).
Qed.

(** C6, as the code has it.  An existing file whose bytes decode as UTF-8
    and whose text, as text-mode reading gives it, does not contain the
    non-empty [old_text]: [edit_file] returns
    ["Text not found in file: <old_text>"] and the file system, so the file,
    is unchanged. *)
Theorem edit_file_text_not_found w p data content old_text new_text :
  file_at w p = Some (File data) ->
  decode data = Some content ->
  old_text <> "" ->
  Text.contains old_text content = false ->
  _edit_file (PStr p) (PStr old_text) new_text w =
    (Ret ("Text not found in file: " +:+ old_text), w).
Proof.
  intros Hf Hd Hne%String.eqb_neq Hc.
  destruct (file_at_open_read _ _ _ Hf) as (loc & Ho & Hn).
  unfold _edit_file, try_except.
  unfold bind at 1. rewrite (file_at_exists _ _ _ Hf).
  unfold bind at 1, lift at 1. cbn [truthy]. rewrite Hne. cbn [negb].
  unfold bind at 1. rewrite Ho.
  unfold bind at 1, read. rewrite Hn, Hd.
  unfold bind, lift. cbn [py_in]. rewrite Hc. reflexivity.
Qed.

(** C5, as the code has it.  When [edit_file] reports that it created the
    file at [p] with the content [C], the file holds exactly [C], and
    [read_file(p)] returns the header line ["File contents of <p>:"], a
    newline, and [C] as text-mode reading gives it (["\r\n"] and ["\r"] read
    as ["\n"]): [C] itself when it has no carriage return. *)
Theorem edit_file_create_then_read w p old_text C w1 :
  _edit_file (PStr p) old_text (PStr C) w = (Ret ("Successfully created " +:+ p), w1) ->
  file_at w1 p = Some (File C)
  /\ _read_file (PStr p) w1 =
       (Ret ("File contents of " +:+ p +:+ ":" +:+ Text.nl +:+ Text.universal_newlines C), w1)
  /\ (Text.has_char Text.CR C = false ->
      _read_file (PStr p) w1 =
        (Ret ("File contents of " +:+ p +:+ ":" +:+ Text.nl +:+ C), w1)).
Proof.
  intros Hrun. unfold _edit_file in Hrun.
  apply try_except_ret_inv in Hrun as [Hbody | (e & s1 & _ & [He _]%ret_inv)];
    [|discriminate He].
  bind_inv Hbody present w2 Hex.
  bind_inv Hbody replacing w3 Hrep.
  destruct replacing.
  - exfalso.
    bind_inv Hbody f w4 Hopen.
    bind_inv Hbody content w5 Hread.
    bind_inv Hbody found w6 Hin.
    destruct found; cbn [negb] in Hbody.
    + bind_inv Hbody content' w7 Hrepl.
      bind_inv Hbody f' w8 Hopen'.
      bind_inv Hbody u w9 Hwrite.
      bind_inv Hbody q w10 Hq.
      apply lift_ret_inv in Hq as [[= <-] _].
      apply ret_inv in Hbody as [He _]. discriminate He.
    + bind_inv Hbody o w7 Ho.
      apply ret_inv in Hbody as [He _]. discriminate He.
  - bind_inv Hbody dir_name w4 Hdir.
    bind_inv Hbody u w5 Hmk.
    bind_inv Hbody f w6 Hopen.
    bind_inv Hbody u' w7 Hwrite.
    bind_inv Hbody q w8 Hq.
    apply lift_ret_inv in Hq as [_ ->].
    apply ret_inv in Hbody as [_ ->].
    pose proof Hopen as (_ & _ & _ & ->)%open_write_inv.
    destruct u'.
    apply write_inv in Hwrite as (text & [= <-] & Hvalid & ->).
    pose proof (file_at_after_write _ _ _ C Hopen) as Hfile.
    assert (decode C = Some (Text.universal_newlines C)) as Hdec
      by (unfold decode; now rewrite Hvalid).
    split; [exact Hfile|]. split.
    + now apply read_file_of_text with (data := C).
    + intros Hcr. rewrite <- (universal_newlines_no_cr C Hcr) at 2.
      now apply read_file_of_text with (data := C).
Qed.

(** C7, as the code has it.  In a directory that contains only the file
    [a.txt] and the subdirectory [b], [list_files(".")] returns exactly
    ["Contents of .:\n[FILE] a.txt\n[DIR]  b/"]: the entries are in the
    lexicographic order of their names ([a.txt] before [b]), the directory
    tagged [[DIR]] and the file [[FILE]]. *)
Theorem list_files_example w data :
  node_at w (cwd w) = Some Dir ->
  children w (cwd w) ≡ₚ ["a.txt"; "b"] ->
  node_at w (cwd w ++ ["a.txt"]) = Some (File data) ->
  node_at w (cwd w ++ ["b"]) = Some Dir ->
  _list_files (PStr ".") w =
    (Ret ("Contents of .:" +:+ Text.nl +:+ "[FILE] a.txt" +:+ Text.nl +:+ "[DIR]  b/"), w).
Proof.
  intros Hcwd Hch Ha Hb.
  assert (locate w "." = inr (cwd w)) as Hdot.
  { change (locate w ".") with (walk w (cwd w) ["."]). rewrite walk_here; auto. }
  assert (file_at w "." = Some Dir) as Hfdot.
  { change (file_at w ".") with
      (match locate w "." with inr loc => node_at w loc | inl _ => None end).
    now rewrite Hdot. }
  assert (file_at w "./a.txt" = Some (File data)) as Hfa.
  { change (file_at w "./a.txt") with
      (match walk w (cwd w) ["."; "a.txt"] with
       | inr loc => node_at w loc
       | inl _ => None
       end).
    rewrite walk_here, walk_down; auto; unfold NAME_MAX; cbn; lia. }
  assert (file_at w "./b" = Some Dir) as Hfb.
  { change (file_at w "./b") with
      (match walk w (cwd w) ["."; "b"] with
       | inr loc => node_at w loc
       | inl _ => None
       end).
    rewrite walk_here, walk_down; auto; unfold NAME_MAX; cbn; lia. }
  assert (list_items (PStr ".") ["a.txt"; "b"] w
          = (Ret ["[FILE] a.txt"; "[DIR]  b/"], w)) as Hitems.
  { cbn [list_items].
    rewrite (bind_eq _ _ w "./a.txt" w) by reflexivity.
    rewrite (bind_eq _ _ _ _ _ (file_at_isdir _ _ _ Hfa)).
    rewrite (bind_eq _ _ w ["[DIR]  b/"] w); [reflexivity|].
    rewrite (bind_eq _ _ w "./b" w) by reflexivity.
    now rewrite (bind_eq _ _ _ _ _ (file_at_isdir _ _ _ Hfb)). }
  unfold _list_files, try_except.
  rewrite (bind_eq _ _ _ _ _ (file_at_exists _ _ _ Hfdot)). cbn [negb].
  rewrite (bind_eq _ _ _ _ _ (file_at_listdir _ _ _ Hfdot Hdot)).
  rewrite (sorted_two _ Hch).
  now rewrite (bind_eq _ _ _ _ _ Hitems).
Qed.

End ToolProperties.

(** ** The chat loop *)

Open Scope list_scope.

Lemma requests_app (a b : list event) : requests (a ++ b) = requests a ++ requests b.
Proof. apply omap_app. Qed.

Lemma requests_tools_only (evs : list event) :
  Forall (fun ev => is_request ev = false) evs -> requests evs = [].
Proof.
  induction 1 as [|ev evs Hev _ IH]; [reflexivity|].
  destruct ev; [discriminate|]. exact IH.
Qed.

Lemma tools_only_no_request (evs : list event) p r :
  Forall (fun ev => is_request ev = false) evs -> Request p r ∉ evs.
Proof.
  intros Hall Hin. rewrite Forall_forall in Hall.
  now specialize (Hall _ Hin).
Qed.

Section ChatProperties.
Context {exn_text : ExnStr} {service : Service}.

Lemma grows_trans st1 st2 st3 t1 t2 e1 e2 :
  grows st1 st2 t1 e1 -> grows st2 st3 t2 e2 -> grows st1 st3 (t1 ++ t2) (e1 ++ e2).
Proof.
  intros (Hm1 & Hi1 & Ht1) (Hm2 & Hi2 & Ht2). unfold grows.
  rewrite Hm2, Hi2, Ht2, Hm1, Hi1, Ht1, !app_assoc. auto.
Qed.

(** The tool loop keeps the conversation and the client, and records tool
    executions only. *)
Lemma run_function_calls_grows function_calls :
  forall st r st',
    run_function_calls function_calls st = (r, st') ->
    session st' = session st
    /\ exists evs, grows st st' [] evs
                   /\ Forall (fun ev => is_request ev = false) evs.
Proof.
  induction function_calls as [|fc rest IH]; intros st r st'.
  - intros [= <- <-]. split; [reflexivity|]. exists [].
    unfold grows. rewrite !app_nil_r. auto.
  - cbn [run_function_calls]. unfold bind at 1, lift at 1.
    destruct (Json.loads _) as [tool_input|e|].
    2,3: intros [= <- <-]; split; [reflexivity|]; exists [];
         unfold grows; rewrite !app_nil_r; auto.
    unfold bind at 1, record at 1. unfold bind at 1, on_files at 1.
    cbn [files model input session trace].
    destruct (_execute_tool (name fc) tool_input (files st)) as [[result|e|] w].
    2,3: intros [= <- <-]; split; [reflexivity|];
         exists [ToolRun (name fc) tool_input]; unfold grows;
         cbn; rewrite app_nil_r; auto.
    unfold bind at 1.
    match goal with |- context [run_function_calls rest ?s] =>
      destruct (run_function_calls rest s) as [r2 st2] eqn:Hrest end.
    apply IH in Hrest as (Hs & evs & (Hm & Hi & Ht) & Hall).
    cbn [files model input session trace] in *.
    intros Hr.
    assert (st' = st2) as -> by (destruct r2; injection Hr; auto).
    split; [exact Hs|]. exists (ToolRun (name fc) tool_input :: evs).
    unfold grows. rewrite Hm, Hi, Ht, <- app_assoc. auto.
Qed.

(** One turn of the loop: it makes exactly one service call, with the
    conversation as it stands; a failed call ends the turn at once with the
    error string; a turn that goes round again has lengthened the
    conversation. *)
Lemma iteration_grows st r st' :
  iteration st = (r, st') ->
  exists reply turns evs,
    grows st st' turns (Request (make_params st) reply :: evs)
    /\ Forall (fun ev => is_request ev = false) evs
    /\ (forall e, reply = Fail e ->
          r = Ret (Some ("Error: " +:+ str_exn e)) /\ turns = [] /\ evs = [])
    /\ (r = Ret None -> turns <> []).
Proof.
  unfold iteration, try_except. unfold bind at 1, responses_create at 1.
  destruct (create (session st) (make_params st)) as [reply c] eqn:Hcreate.
  destruct reply as [response|e].
  - unfold bind at 1, extend_input at 1.
    cbn [files model input session trace].
    destruct (keep_function_calls (output response)) as [|fc fcs] eqn:Hcalls.
    + intros [= <- <-]. exists (Respond response), (OutputItem <$> output response), [].
      unfold grows. cbn. repeat split; auto; discriminate.
    + unfold bind at 1.
      match goal with |- context [run_function_calls (fc :: fcs) ?s] =>
        destruct (run_function_calls (fc :: fcs) s) as [r2 st2] eqn:Hrun end.
      apply run_function_calls_grows in Hrun as (_ & evs & (Hm & Hi & Ht) & Hall).
      cbn [files model input session trace] in *. rewrite app_nil_r in Hi.
      assert (output response <> []) as Hout.
      { intros Hnil. rewrite Hnil in Hcalls. discriminate. }
      assert ((OutputItem <$> output response) <> []) as Hout'.
      { destruct (output response); [congruence|discriminate]. }
      destruct r2 as [results|e|].
      * unfold bind at 1.
        destruct results as [|res ress].
        -- intros [= <- <-]. exists (Respond response), (OutputItem <$> output response), evs.
           unfold grows. rewrite Hm, Hi, Ht, <- app_assoc.
           repeat split; auto; discriminate.
        -- unfold extend_input at 1. intros [= <- <-].
           exists (Respond response), ((OutputItem <$> output response) ++ res :: ress), evs.
           unfold grows. cbn [files model input session trace].
           rewrite Hm, Hi, Ht, <- !app_assoc.
           repeat split; auto; try discriminate.
           intros _ Hnil. apply app_eq_nil in Hnil as [? _]. contradiction.
      * intros [= <- <-]. exists (Respond response), (OutputItem <$> output response), evs.
        unfold grows. rewrite Hm, Hi, Ht, <- app_assoc.
        repeat split; auto; discriminate.
      * intros [= <- <-]. exists (Respond response), (OutputItem <$> output response), evs.
        unfold grows. rewrite Hm, Hi, Ht, <- app_assoc.
        repeat split; auto; discriminate.
  - intros [= <- <-]. exists (Fail e), [], [].
    unfold grows. cbn. rewrite app_nil_r.
    split; [auto|]. split; [constructor|]. split.
    + now intros e' [= ->].
    + discriminate.
Qed.

(** Every exception raised in the loop body is caught. *)
Lemma iteration_no_raise st e : fst (iteration st) <> Raise e.
Proof.
  unfold iteration, try_except.
  match goal with |- context [match ?m st with _ => _ end] =>
    destruct (m st) as [[?|?|] ?] end; cbn; discriminate.
Qed.

Lemma loop_no_escape fuel : forall st e, fst (loop fuel st) <> Escaped e.
Proof.
  induction fuel as [|fuel IH]; intros st e; cbn [loop]; [discriminate|].
  pose proof (iteration_no_raise st) as Hno.
  destruct (iteration st) as [[[s|]|e'|] st1]; cbn [fst] in *;
    try discriminate; [apply IH|now destruct (Hno e')].
Qed.

Lemma grows_prefix st st' turns evs : grows st st' turns evs -> input st `prefix_of` input st'.
Proof. intros (_ & -> & _). now apply prefix_app_r. Qed.

Lemma loop_requests fuel :
  forall st o st',
    loop fuel st = (o, st') ->
    exists evs,
      trace st' = trace st ++ evs
      /\ input st `prefix_of` input st'
      /\ Forall (fun sent => input st `prefix_of` sent /\ sent `prefix_of` input st')
                (requests evs)
      /\ StronglySorted extends (requests evs).
Proof.
  induction fuel as [|fuel IH]; intros st o st'; cbn [loop].
  - intros [= <- <-]. exists []. rewrite app_nil_r.
    repeat split; auto; constructor.
  - destruct (iteration st) as [r st1] eqn:Hit.
    destruct (iteration_grows _ _ _ Hit)
      as (reply & turns & evs1 & Hg & Htools & _ & Hmore).
    pose proof (grows_prefix _ _ _ _ Hg) as Hpre.
    destruct Hg as (_ & Hi & Ht).
    assert (requests (Request (make_params st) reply :: evs1) = [input st]) as Hreq.
    { change (requests (Request (make_params st) reply :: evs1))
        with (input st :: requests evs1).
      now rewrite (requests_tools_only _ Htools). }
    assert (forall s, (r, st1) = (s, st') ->
            exists evs, trace st' = trace st ++ evs
              /\ input st `prefix_of` input st'
              /\ Forall (fun sent => input st `prefix_of` sent /\ sent `prefix_of` input st')
                        (requests evs)
              /\ StronglySorted extends (requests evs)) as Hstop.
    { intros s [= _ <-]. eexists. split; [exact Ht|]. rewrite Hreq.
      repeat split; auto; repeat constructor; auto. }
    destruct r as [[s|]|e|].
    + intros [= <- <-]. eapply Hstop; reflexivity.
    + intros Hloop.
      destruct (IH _ _ _ Hloop) as (evs2 & Ht2 & Hpre2 & Hall2 & Hsorted2).
      exists ((Request (make_params st) reply :: evs1) ++ evs2).
      rewrite Ht2, Ht, <- app_assoc. split; [reflexivity|].
      split; [now transitivity (input st1)|].
      rewrite requests_app, Hreq. cbn [app]. split.
      * constructor; [split; [reflexivity|now transitivity (input st1)]|].
        eapply Forall_impl; [exact Hall2|]. intros sent [H1 H2].
        split; [now transitivity (input st1)|exact H2].
      * constructor; [exact Hsorted2|].
        eapply Forall_impl; [exact Hall2|]. intros sent [H1 _].
        split; [now transitivity (input st1)|].
        apply prefix_length in H1.
        assert (List.length (input st) < List.length (input st1)); [|lia].
        rewrite Hi, length_app. specialize (Hmore eq_refl).
        destruct turns; [congruence|cbn; lia].
    + intros [= <- <-]. eapply Hstop; reflexivity.
    + intros [= <- <-]. eapply Hstop; reflexivity.
Qed.

Lemma loop_failure fuel :
  forall st o st',
    loop fuel st = (o, st') ->
    exists evs,
      trace st' = trace st ++ evs
      /\ forall p e,
           Request p (Fail e) ∈ evs ->
           o = Returned ("Error: " +:+ str_exn e)
           /\ (exists before, evs = before ++ [Request p (Fail e)])
           /\ input st' = params_input p.
Proof.
  induction fuel as [|fuel IH]; intros st o st'; cbn [loop].
  - intros [= <- <-]. exists []. rewrite app_nil_r. split; [reflexivity|].
    intros p e Hin. now apply elem_of_nil in Hin.
  - destruct (iteration st) as [r st1] eqn:Hit.
    destruct (iteration_grows _ _ _ Hit)
      as (reply & turns & evs1 & (_ & Hi & Ht) & Htools & Hfail & _).
    destruct reply as [response|e0].
    + assert (forall p e, Request p (Fail e) ∉ Request (make_params st) (Respond response) :: evs1)
        as Hnone.
      { intros p e [Heq|Hin]%elem_of_cons; [discriminate|].
        now apply (tools_only_no_request _ _ _ Htools) in Hin. }
      destruct r as [[s|]|e|].
      2:{ intros Hloop. destruct (IH _ _ _ Hloop) as (evs2 & Ht2 & Hfail2).
          exists ((Request (make_params st) (Respond response) :: evs1) ++ evs2).
          rewrite Ht2, Ht, <- app_assoc. split; [reflexivity|].
          intros p e [Hin|Hin]%elem_of_app; [now apply Hnone in Hin|].
          destruct (Hfail2 _ _ Hin) as (Ho & (before & ->) & Hinput).
          split; [exact Ho|]. split; [|exact Hinput].
          eexists. now rewrite app_assoc. }
      all: intros [= <- <-]; eexists; split; [exact Ht|];
           intros p0 e1 Hin; now apply Hnone in Hin.
    + destruct (Hfail _ eq_refl) as (-> & -> & ->).
      intros [= <- <-]. eexists. split; [exact Ht|].
      intros p e [[= -> ->]|Hin]%elem_of_cons; [|now apply elem_of_nil in Hin].
      split; [reflexivity|]. split; [now exists []|].
      rewrite Hi, app_nil_r. reflexivity.
Qed.

(** C1.  When the service's first response has no [function_call] item,
    [chat] makes exactly one service call, runs no tool, and returns the
    response's [output_text] (the empty string when there is none); the
    conversation gains the user turn and the response's items, and the file
    system is untouched. *)
Theorem chat_no_tool_calls (st : state) (user_input : string)
    (r : response) (c' : client) (fuel : nat) :
  let sent :=
    make_params (State (model st) (input st ++ [UserMessage user_input])
                       (session st) (files st) (trace st)) in
  create (session st) sent = (Respond r, c') ->
  keep_function_calls (output r) = [] ->
  chat (S fuel) user_input st =
    (Returned (default ""%string (output_text r)),
     State (model st)
           ((input st ++ [UserMessage user_input]) ++ (OutputItem <$> output r))
           c' (files st)
           (trace st ++ [Request sent (Respond r)])).
Proof.
  intros sent Hcreate Hcalls.
  unfold chat. cbn [loop]. unfold iteration, try_except.
  unfold bind at 1, responses_create at 1.
  cbn [files model input session trace]. fold sent. rewrite Hcreate.
  unfold bind at 1, extend_input at 1. rewrite Hcalls. reflexivity.
Qed.

(** C2.  During [chat] the conversation is only appended to.  The turn lists
    sent to the service form a chain: each one starts with the conversation as
    it was after the user turn was added, each later one is an earlier one
    with turns appended, and the conversation at the end extends them all. *)
Theorem chat_conversation_append_only (fuel : nat) (user_input : string) (st : state) :
  let st' := snd (chat fuel user_input st) in
  let start := input st ++ [UserMessage user_input] in
  exists evs,
    trace st' = trace st ++ evs
    /\ start `prefix_of` input st'
    /\ Forall (fun sent => start `prefix_of` sent /\ sent `prefix_of` input st')
              (requests evs)
    /\ StronglySorted extends (requests evs).
Proof.
  intros st' start. unfold chat in st'.
  destruct (loop fuel _) as [o st1] eqn:Hloop in st'.
  apply loop_requests in Hloop. exact Hloop.
Qed.

(** C4.  When a call of the model service fails during [chat], [chat]
    returns the string ["Error: "] followed by the text of the exception; the
    failed call is the last event of the run, so nothing is retried; and the
    conversation is the one that was sent in the failed call, with every
    turn appended before it. *)
Theorem chat_service_failure (fuel : nat) (user_input : string) (st : state)
    (evs : list event) (p : params) (e : exn) :
  let result := chat fuel user_input st in
  trace (snd result) = trace st ++ evs ->
  Request p (Fail e) ∈ evs ->
  fst result = Returned ("Error: " +:+ str_exn e)
  /\ (exists before, evs = before ++ [Request p (Fail e)])
  /\ input (snd result) = params_input p
  /\ (input st ++ [UserMessage user_input]) `prefix_of` input (snd result).
Proof.
  intros result Htrace Hin. subst result. unfold chat in *.
  destruct (loop fuel _) as [o st'] eqn:Hloop.
  pose proof (loop_requests _ _ _ _ Hloop) as (_ & _ & Hpre & _).
  apply loop_failure in Hloop as (evs' & Ht & Hfail).
  cbn [fst snd trace] in *.
  assert (evs' = evs) as -> by (rewrite Ht in Htrace; now apply app_inv_head in Htrace).
  destruct (Hfail _ _ Hin) as (Ho & Hlast & Hinput). auto.
Qed.

Lemma execute_tool_empty_input tool_name w :
  exists result, _execute_tool tool_name (PDict []) w = (Ret result, w).
Proof.
  unfold _execute_tool, try_except.
  destruct (String.eqb tool_name "read_file"); [eexists; reflexivity|].
  destruct (String.eqb tool_name "list_files"); [eexists; reflexivity|].
  destruct (String.eqb tool_name "edit_file"); eexists; reflexivity.
Qed.

(** C3, as the code has it.  For a tool call whose [arguments] are [None] or
    the empty string, the loop takes the empty [dict] as the tool input and
    runs the executor on it; the executor returns a string, which becomes
    the call's [function_call_output], and the loop goes on with the
    remaining calls. *)
Theorem absent_arguments_run_tool (function_call : output_item)
    (rest : list output_item) (st : state) :
  arguments function_call = None \/ arguments function_call = Some ""%string ->
  exists result,
    _execute_tool (name function_call) (PDict []) (files st) = (Ret result, files st)
    /\ run_function_calls (function_call :: rest) st =
         (function_results <- run_function_calls rest ;;
          ret (FunctionCallOutput (call_id function_call) result :: function_results))
           (State (model st) (input st) (session st) (files st)
                  (trace st ++ [ToolRun (name function_call) (PDict [])])).
Proof.
  intros Hargs.
  destruct (execute_tool_empty_input (name function_call) (files st)) as [result Hres].
  exists result. split; [exact Hres|].
  assert (Json.loads (arguments_or_empty function_call) = Ret (PDict [])) as Hloads.
  { unfold arguments_or_empty. destruct Hargs as [-> | ->]; reflexivity. }
  cbn [run_function_calls]. unfold bind at 1, lift at 1. rewrite Hloads.
  unfold bind at 1, record at 1. unfold bind at 1, on_files at 1.
  cbn [files model input session trace]. rewrite Hres. reflexivity.
Qed.

End ChatProperties.


(** ** The properties at concrete inputs *)

(** C1 at the scripted answer [greeting]. *)
Lemma chat_no_tool_calls_witness :
  let st := fresh_agent [Respond greeting] example_world in
  let sent := Params [UserMessage "hello"] "gpt-4o-mini" 1 false in
  create (session st) sent = (Respond greeting, [])
  /\ keep_function_calls (output greeting) = []
  /\ chat (exn_text := sample_str) 1 "hello" st =
       (Returned "Hello! How can I help?",
        State "gpt-4o-mini"
              ([UserMessage "hello"] ++ (OutputItem <$> output greeting))
              ([] : @client scripted) example_world
              [Request sent (Respond greeting)]).
Proof.
  intros st sent. split; [reflexivity|]. split; [reflexivity|].
  exact (@chat_no_tool_calls sample_str scripted st "hello" greeting [] 0
           eq_refl eq_refl).
Defined.

(** C4 where the second service call fails, after a tool has run. *)
Lemma chat_service_failure_witness :
  let st := fresh_agent [Respond unknown_call; Fail rate_limited] example_world in
  let first := Params [UserMessage "hello"] "gpt-4o-mini" 1 false in
  let second :=
    Params [UserMessage "hello";
            OutputItem (function_call_item "call_1" "delete_file" None);
            FunctionCallOutput "call_1" "Unknown tool: delete_file"]
           "gpt-4o-mini" 1 false in
  let evs := [Request first (Respond unknown_call);
              ToolRun "delete_file" (PDict []);
              Request second (Fail rate_limited)] in
  let result := chat (exn_text := sample_str) 5 "hello" st in
  trace (snd result) = trace st ++ evs
  /\ Request second (Fail rate_limited) ∈ evs
  /\ fst result = Returned "Error: Rate limit exceeded"
  /\ (exists before, evs = before ++ [Request second (Fail rate_limited)])
  /\ input (snd result) = params_input second
  /\ (input st ++ [UserMessage "hello"]) `prefix_of` input (snd result).
Proof.
  intros st first second evs result.
  assert (trace (snd result) = trace st ++ evs) as Htrace by (vm_compute; reflexivity).
  assert (Request second (Fail rate_limited) ∈ evs) as Hin by (do 2 right; left).
  split; [exact Htrace|]. split; [exact Hin|].
  exact (@chat_service_failure sample_str scripted 5 "hello" st evs second
           rate_limited Htrace Hin).
Defined.

(** C3 at a call of [list_files] without arguments. *)
Lemma absent_arguments_run_tool_witness :
  let call := function_call_item "call_1" "list_files" None in
  let st := fresh_agent [] example_world in
  (arguments call = None \/ arguments call = Some ""%string)
  /\ exists result,
       _execute_tool (exn_text := sample_str) (name call) (PDict []) (files st)
         = (Ret result, files st)
       /\ run_function_calls (exn_text := sample_str) (call :: []) st =
            (function_results <- run_function_calls (exn_text := sample_str) [] ;;
             ret (FunctionCallOutput (call_id call) result :: function_results))
              (State (model st) (input st) (session st) (files st)
                     (trace st ++ [ToolRun (name call) (PDict [])])).
Proof.
  intros call st. split; [left; reflexivity|].
  exact (@absent_arguments_run_tool sample_str scripted call [] st
           (or_introl eq_refl)).
Defined.

(** C3 as stated fails: arguments that are not JSON end [chat] with an error
    string, and the tool is not run. *)
Lemma malformed_arguments_end_chat :
  let result := chat (exn_text := sample_str) (service := scripted) 5 "hello"
                     (fresh_agent [Respond malformed_call] example_world) in
  Json.loads "{" = Raise (JSONDecodeError "Expecting property name enclosed in double quotes")
  /\ fst result =
       Returned ("Error: " +:+ @str_exn sample_str
                    (JSONDecodeError "Expecting property name enclosed in double quotes"))
  /\ tool_runs (trace (snd result)) = []
  /\ requests (trace (snd result)) = [[UserMessage "hello"]].
Proof. vm_compute. auto. Qed.

(** C5 at a new file [notes/todo.txt]. *)
Lemma edit_file_create_then_read_witness :
  let created := _edit_file (exn_text := sample_str) (PStr "notes/todo.txt") (PStr "")
                            (PStr "buy milk") example_world in
  created = (Ret ("Successfully created " +:+ "notes/todo.txt"), snd created)
  /\ file_at (snd created) "notes/todo.txt" = Some (File "buy milk")
  /\ _read_file (exn_text := sample_str) (PStr "notes/todo.txt") (snd created) =
       (Ret ("File contents of " +:+ "notes/todo.txt" +:+ ":" +:+ Text.nl
             +:+ Text.universal_newlines "buy milk"), snd created)
  /\ (Text.has_char Text.CR "buy milk" = false ->
      _read_file (exn_text := sample_str) (PStr "notes/todo.txt") (snd created) =
        (Ret ("File contents of " +:+ "notes/todo.txt" +:+ ":" +:+ Text.nl +:+ "buy milk"),
         snd created)).
Proof.
  intros created.
  assert (created = (Ret ("Successfully created " +:+ "notes/todo.txt"), snd created))
    as Hcreated by (vm_compute; reflexivity).
  split; [exact Hcreated|].
  exact (@edit_file_create_then_read sample_str example_world "notes/todo.txt"
           (PStr "") "buy milk" (snd created) Hcreated).
Defined.

(** C5 as stated fails: reading the created file back gives the header line
    before the content. *)
Lemma create_then_read_is_not_content :
  let created := _edit_file (exn_text := sample_str) (PStr "note.txt") (PStr "")
                            (PStr "hi") example_world in
  fst created = Ret "Successfully created note.txt"
  /\ fst (_read_file (exn_text := sample_str) (PStr "note.txt") (snd created))
     = Ret ("File contents of note.txt:" +:+ Text.nl +:+ "hi")
  /\ fst (_read_file (exn_text := sample_str) (PStr "note.txt") (snd created)) <> Ret "hi".
Proof. vm_compute. repeat split; discriminate. Qed.

(** C6 at [a.txt], which holds ["hello"]. *)
Lemma edit_file_text_not_found_witness :
  file_at example_world "a.txt" = Some (File "hello")
  /\ decode "hello" = Some "hello"
  /\ "xyz" <> ""
  /\ Text.contains "xyz" "hello" = false
  /\ _edit_file (exn_text := sample_str) (PStr "a.txt") (PStr "xyz") (PStr "abc") example_world =
       (Ret ("Text not found in file: " +:+ "xyz"), example_world).
Proof.
  assert (file_at example_world "a.txt" = Some (File "hello")) as Hfile by reflexivity.
  assert (decode "hello" = Some "hello") as Hdec by reflexivity.
  assert ("xyz" <> "") as Hne by discriminate.
  assert (Text.contains "xyz" "hello" = false) as Hc by reflexivity.
  repeat (split; [assumption|]).
  exact (@edit_file_text_not_found sample_str example_world "a.txt" "hello" "hello"
           "xyz" (PStr "abc") Hfile Hdec Hne Hc).
Defined.

(** C6 as stated fails.  [raw.bin] exists and its content does not contain
    ["xyz"], but it cannot be decoded, and [edit_file] reports the decoding
    error, not the missing text.  [dos.txt] does not contain [a], LF, [b]
    byte for byte, but its text does, and the file is rewritten. *)
Lemma edit_file_not_found_needs_text :
  let lf_text := String "a" (String Text.LF "b") in
  let crlf_data := String "a" (String Text.CR (String Text.LF "b")) in
  let on_raw := _edit_file (exn_text := sample_str) (PStr "raw.bin") (PStr "xyz")
                           (PStr "abc") project_world in
  let on_dos := _edit_file (exn_text := sample_str) (PStr "dos.txt") (PStr lf_text)
                           (PStr "c") dos_world in
  file_at project_world "raw.bin" = Some (File (String "255" ""))
  /\ Text.contains "xyz" (String "255" "") = false
  /\ on_raw = (Ret "Error editing file: 'utf-8' codec can't decode", project_world)
  /\ fst on_raw <> Ret "Text not found in file: xyz"
  /\ file_at dos_world "dos.txt" = Some (File crlf_data)
  /\ Text.contains lf_text crlf_data = false
  /\ fst on_dos = Ret "Successfully edited dos.txt"
  /\ file_at (snd on_dos) "dos.txt" = Some (File "c").
Proof. vm_compute. repeat split; discriminate. Qed.

(** C7 at [example_world]. *)
Lemma list_files_example_witness :
  node_at example_world (cwd example_world) = Some Dir
  /\ children example_world (cwd example_world) ≡ₚ ["a.txt"; "b"]
  /\ node_at example_world (cwd example_world ++ ["a.txt"]) = Some (File "hello")
  /\ node_at example_world (cwd example_world ++ ["b"]) = Some Dir
  /\ _list_files (exn_text := sample_str) (PStr ".") example_world =
       (Ret ("Contents of .:" +:+ Text.nl +:+ "[FILE] a.txt" +:+ Text.nl +:+ "[DIR]  b/"),
        example_world).
Proof.
  assert (children example_world (cwd example_world) ≡ₚ ["a.txt"; "b"]) as Hch
    by (vm_compute; reflexivity).
  split; [reflexivity|]. split; [exact Hch|]. split; [reflexivity|]. split; [reflexivity|].
  exact (@list_files_example sample_str example_world "hello" eq_refl Hch eq_refl eq_refl).
Defined.

(** C7 as stated fails: the listing has [a.txt] before [b]. *)
Lemma list_files_example_order :
  fst (_list_files (exn_text := sample_str) (PStr ".") example_world)
    = Ret ("Contents of .:" +:+ Text.nl +:+ "[FILE] a.txt" +:+ Text.nl +:+ "[DIR]  b/")
  /\ fst (_list_files (exn_text := sample_str) (PStr ".") example_world)
     <> Ret ("Contents of .:" +:+ Text.nl +:+ "[DIR]  b/" +:+ Text.nl +:+ "[FILE] a.txt").
Proof. vm_compute. split; [reflexivity|discriminate]. Qed.

(** C8 at the undeclared tool [delete_file]. *)
Lemma execute_unknown_tool_witness :
  "delete_file" <> "read_file" /\ "delete_file" <> "list_files"
  /\ "delete_file" <> "edit_file"
  /\ _execute_tool (exn_text := sample_str) "delete_file" (PDict [("path", PStr "a.txt")])
       example_world
     = (Ret ("Unknown tool: " +:+ "delete_file"), example_world).
Proof.
  assert ("delete_file" <> "read_file") as H1 by discriminate.
  assert ("delete_file" <> "list_files") as H2 by discriminate.
  assert ("delete_file" <> "edit_file") as H3 by discriminate.
  repeat (split; [assumption|]).
  exact (@execute_unknown_tool sample_str "delete_file" (PDict [("path", PStr "a.txt")])
           example_world H1 H2 H3).
Defined.

(** C9 at [{"path": None}]. *)
Lemma execute_list_files_default_witness :
  subscript (PDict [("path", PNone)]) "path" = Ret PNone
  /\ (PNone = PNone \/ PNone = PStr "")
  /\ _execute_tool (exn_text := sample_str) "list_files" (PDict [("path", PNone)]) example_world
     = _list_files (exn_text := sample_str) (PStr ".") example_world.
Proof.
  split; [reflexivity|]. split; [left; reflexivity|].
  exact (@execute_list_files_default sample_str (PDict [("path", PNone)]) PNone
           example_world eq_refl (or_introl eq_refl)).
Defined.

(** C9 as stated fails: without a [path] key the executor reports the
    [KeyError] instead of listing the current directory. *)
Lemma list_files_without_path_key :
  fst (_execute_tool (exn_text := sample_str) "list_files" (PDict []) example_world)
    = Ret "Error executing list_files: 'path'"
  /\ fst (_execute_tool (exn_text := sample_str) "list_files" (PDict []) example_world)
     <> fst (_list_files (exn_text := sample_str) (PStr ".") example_world).
Proof. vm_compute. split; [reflexivity|discriminate]. Qed.

(** C10 at [a.txt], which holds ["hello"]. *)
Lemma read_file_prefixes_header_witness :
  file_at example_world "a.txt" = Some (File "hello")
  /\ decode "hello" = Some "hello"
  /\ _read_file (exn_text := sample_str) (PStr "a.txt") example_world =
       (Ret ("File contents of " +:+ "a.txt" +:+ ":" +:+ Text.nl +:+ "hello"), example_world)
  /\ fst (_read_file (exn_text := sample_str) (PStr "a.txt") example_world) <> Ret "hello".
Proof.
  split; [reflexivity|]. split; [reflexivity|].
  exact (@read_file_prefixes_header sample_str example_world "a.txt" "hello" "hello"
           eq_refl eq_refl).
Defined.

(** * Further properties of the tools *)

(** ** Computations that only read *)

Lemma read_only_ret {A} (a : A) : read_only (ret a).
Proof. now intros w. Qed.

Lemma read_only_raise {A} (e : exn) : read_only (raise (A := A) e).
Proof. now intros w. Qed.

Lemma read_only_lift {A} (r : res A) : read_only (lift r).
Proof. now intros w. Qed.

Lemma read_only_bind {A B} (m : M world A) (k : A -> M world B) :
  read_only m -> (forall a, read_only (k a)) -> read_only (bind m k).
Proof.
  intros Hm Hk w. unfold bind. specialize (Hm w).
  destruct (m w) as [[a|e|] w1]; cbn [snd] in *; subst; auto. apply Hk.
Qed.

Lemma read_only_try {A} (m : M world A) (h : exn -> M world A) :
  read_only m -> (forall e, read_only (h e)) -> read_only (try_except m h).
Proof.
  intros Hm Hh w. unfold try_except. specialize (Hm w).
  destruct (m w) as [[a|e|] w1]; cbn [snd] in *; subst; auto. apply Hh.
Qed.

Lemma read_only_lookup_path v : read_only (lookup_path v).
Proof.
  apply read_only_bind; [apply read_only_lift|]. intros p w. cbn beta.
  destruct (locate w p) as [code|loc]; [reflexivity|]. now destruct (node_at w loc).
Qed.

Lemma read_only_os_or_value_error e : read_only (os_or_value_error_is_false e).
Proof. destruct e; first [apply read_only_ret | apply read_only_raise]. Qed.

Lemma read_only_exists v : read_only (exists_ v).
Proof.
  apply read_only_try; [|apply read_only_os_or_value_error].
  apply read_only_bind; [apply read_only_lookup_path|]. intros; apply read_only_ret.
Qed.

Lemma read_only_isdir v : read_only (isdir v).
Proof.
  apply read_only_try; [|apply read_only_os_or_value_error].
  apply read_only_bind; [apply read_only_lookup_path|]. intros; apply read_only_ret.
Qed.

Lemma read_only_listdir v : read_only (listdir v).
Proof.
  apply read_only_bind; [apply read_only_lookup_path|]. intros [loc [data|]].
  - apply read_only_bind; [apply read_only_lift|]. intros; apply read_only_raise.
  - now intros w.
Qed.

Lemma read_only_open_read v : read_only (open_read v).
Proof.
  apply read_only_bind; [apply read_only_lookup_path|]. intros [loc [data|]].
  - apply read_only_ret.
  - apply read_only_bind; [apply read_only_lift|]. intros; apply read_only_raise.
Qed.

Lemma read_only_read handle : read_only (read handle).
Proof.
  intros w. unfold read. destruct (node_at w handle) as [[data|]|]; try reflexivity.
  now destruct (decode data).
Qed.

Section ReadingTools.
Context {exn_text : ExnStr}.

Lemma read_only_list_items path names : read_only (list_items path names).
Proof.
  induction names as [|item rest IH]; [apply read_only_ret|]. cbn [list_items].
  apply read_only_bind; [apply read_only_lift|]. intros item_path.
  apply read_only_bind; [apply read_only_isdir|]. intros d.
  apply read_only_bind; [exact IH|]. intros; apply read_only_ret.
Qed.

(** X1.  [read_file] and [list_files] never change the file system, whatever
    they are given and whatever they return. *)
Theorem reading_tools_change_nothing (path : pyval) (w : world) :
  snd (_read_file path w) = w /\ snd (_list_files path w) = w.
Proof.
  split.
  - apply (read_only_try _ _).
    + apply read_only_bind; [apply read_only_open_read|]. intros f.
      apply read_only_bind; [apply read_only_read|]. intros content.
      apply read_only_bind; [apply read_only_lift|]. intros; apply read_only_ret.
    + intros e. destruct (is_FileNotFoundError e); [|apply read_only_ret].
      apply read_only_bind; [apply read_only_lift|]. intros; apply read_only_ret.
  - apply (read_only_try _ _); [|intros; apply read_only_ret].
    apply read_only_bind; [apply read_only_exists|]. intros present.
    destruct (negb present).
    + apply read_only_bind; [apply read_only_lift|]. intros; apply read_only_ret.
    + apply read_only_bind; [apply read_only_listdir|]. intros names.
      apply read_only_bind; [apply read_only_list_items|]. intros items.
      apply read_only_bind; [apply read_only_lift|]. intros p.
      destruct items; apply read_only_ret.
Qed.

Lemma try_except_ret_no_raise {S A} (m : M S A) (f : exn -> A) s e :
  fst (try_except m (fun e => ret (f e)) s) <> Raise e.
Proof.
  unfold try_except. destruct (m s) as [[a|e'|] s1]; cbn; discriminate.
Qed.

Lemma read_file_no_raise path w e : fst (_read_file path w) <> Raise e.
Proof.
  unfold _read_file, try_except.
  match goal with |- context [match ?m w with _ => _ end] =>
    destruct (m w) as [[a|e'|] w1] end; try (cbn; discriminate).
  destruct (is_FileNotFoundError e'); [|cbn; discriminate].
  unfold bind, lift. destruct path; cbn; discriminate.
Qed.

Lemma edit_file_no_raise path old_text new_text w e :
  fst (_edit_file path old_text new_text w) <> Raise e.
Proof. apply try_except_ret_no_raise. Qed.

Lemma execute_tool_no_raise tool_name tool_input w e :
  fst (_execute_tool tool_name tool_input w) <> Raise e.
Proof. apply try_except_ret_no_raise. Qed.

(** X2.  No tool, and no call of the executor, lets an exception through: the
    result is a string (or the run leaves the model), never a raise. *)
Theorem tools_never_raise (tool_name : string) (v v1 v2 : pyval) (w : world) (e : exn) :
  fst (_read_file v w) <> Raise e
  /\ fst (_list_files v w) <> Raise e
  /\ fst (_edit_file v v1 v2 w) <> Raise e
  /\ fst (_execute_tool tool_name v w) <> Raise e.
Proof.
  split; [apply read_file_no_raise|].
  split; [apply list_files_no_raise|].
  split; [apply edit_file_no_raise|].
  apply execute_tool_no_raise.
Qed.

End ReadingTools.

(** ** What [read_file] and [list_files] answer *)

Lemma utf8_ok_fs_ok l : Text.utf8_ok l = true -> Text.fs_ok l = true.
Proof.
  assert (forall n l, (List.length l <= n)%nat ->
            Text.utf8_ok l = true -> Text.fs_ok l = true) as Hall;
    [|now apply (Hall (List.length l))].
  clear l. induction n as [|n IH]; intros l Hlen.
  { destruct l; [reflexivity|cbn in Hlen; lia]. }
  destruct l as [|b0 r0]; [reflexivity|]. cbn [List.length] in Hlen.
  cbn [Text.utf8_ok Text.fs_ok].
  destruct (b0 <? 128)%N; [apply IH; lia|].
  destruct r0 as [|b1 r1]; [auto|]. cbn [List.length] in Hlen.
  destruct (Text.between 194 223 b0).
  { rewrite !andb_true_iff. intros [H1 H2].
    split; [assumption|apply IH; [lia|assumption]]. }
  destruct r1 as [|b2 r2]; [auto|]. cbn [List.length] in Hlen.
  destruct (Text.between 224 239 b0).
  { rewrite !andb_true_iff. intros [[H1 H2] H3].
    repeat split; [|assumption|apply IH; [lia|assumption]].
    destruct (b0 =? 224)%N; [assumption|].
    destruct (b0 =? 237)%N; [|assumption]. now rewrite H1. }
  destruct r2 as [|b3 r3]; [auto|]. cbn [List.length] in Hlen.
  rewrite !andb_true_iff. intros [[[[H1 H2] H3] H4] H5].
  repeat split; auto. apply IH; [lia|assumption].
Qed.

(** Text without NUL passes as a path. *)
Lemma fspath_text p :
  Text.utf8_valid p = true -> Text.has_char "000" p = false -> fspath (PStr p) = Ret p.
Proof.
  intros Hutf Hnul. cbn [fspath]. unfold Text.fs_encodable.
  now rewrite (utf8_ok_fs_ok _ Hutf), Hnul.
Qed.

Lemma lookup_path_str w p :
  fspath (PStr p) = Ret p ->
  lookup_path (PStr p) w =
    match locate w p with
    | inl code => (Raise (OSError code p), w)
    | inr loc =>
        match node_at w loc with
        | Some n => (Ret (loc, n), w)
        | None => (Raise (OSError ENOENT p), w)
        end
    end.
Proof. intros Hq. unfold lookup_path, bind, lift. now rewrite Hq. Qed.

Lemma lookup_path_cases w p :
  lookup_path (PStr p) w =
    if negb (Text.fs_encodable p) then (Raise UnicodeEncodeError, w)
    else if Text.has_char "000" p then (Raise (ValueError "embedded null byte"), w)
    else match locate w p with
         | inl code => (Raise (OSError code p), w)
         | inr loc =>
             match node_at w loc with
             | Some n => (Ret (loc, n), w)
             | None => (Raise (OSError ENOENT p), w)
             end
         end.
Proof.
  unfold lookup_path, bind, lift. cbn [fspath].
  destruct (Text.fs_encodable p); cbn [negb]; [|reflexivity].
  now destruct (Text.has_char _ p).
Qed.

Lemma file_at_none_exists w p :
  file_at w p = None -> exists_ (PStr p) w = (Ret false, w).
Proof.
  unfold file_at, exists_, try_except, bind. rewrite lookup_path_cases. cbn [fspath].
  destruct (Text.fs_encodable p); cbn [negb]; [|reflexivity].
  destruct (Text.has_char _ p); [reflexivity|].
  destruct (locate w p) as [code|loc]; [reflexivity|].
  now intros ->.
Qed.



Section Answers.
Context {exn_text : ExnStr}.


(** X3.  A path that is text (well-formed UTF-8) without NUL and whose
    resolution ends at a missing entry ([FileNotFoundError]): [read_file]
    returns ["File not found: <path>"]. *)
Theorem read_file_missing w p :
  Text.utf8_valid p = true ->
  Text.has_char "000" p = false ->
  locate w p = inl ENOENT
  \/ (exists loc, locate w p = inr loc /\ node_at w loc = None) ->
  _read_file (PStr p) w = (Ret ("File not found: " +:+ p), w).
Proof.
  intros Hutf Hnul Hmiss.
  assert (open_read (PStr p) w = (Raise (OSError ENOENT p), w)) as Hopen.
  { unfold open_read, bind. rewrite (lookup_path_str _ _ (fspath_text _ Hutf Hnul)).
    destruct Hmiss as [-> | (loc & -> & ->)]; reflexivity. }
  unfold _read_file, try_except, bind. now rewrite Hopen.
Qed.

(** X4.  A path that names a directory: [read_file] reports the
    [IsADirectoryError] as ["Error reading file: ..."], not as a missing
    file. *)
Theorem read_file_directory w p :
  file_at w p = Some Dir ->
  _read_file (PStr p) w = (Ret ("Error reading file: " +:+ str_exn (OSError EISDIR p)), w).
Proof.
  intros (loc & Hl & _ & _ & Hq)%file_at_lookup_path.
  unfold _read_file, try_except, bind, open_read, bind, lift.
  now rewrite Hl, Hq.
Qed.

(** X5.  A file whose bytes are not UTF-8: [read_file] reports the decoding error
    as ["Error reading file: ..."]. *)
Theorem read_file_undecodable w p data :
  file_at w p = Some (File data) ->
  decode data = None ->
  _read_file (PStr p) w = (Ret ("Error reading file: " +:+ str_exn UnicodeDecodeError), w).
Proof.
  intros (loc & Ho & Hn)%file_at_open_read Hd.
  unfold _read_file, try_except, bind, read. now rewrite Ho, Hn, Hd.
Qed.



(** X8.  A directory without entries: ["Empty directory: <path>"]. *)
Theorem list_files_empty_directory w p loc :
  file_at w p = Some Dir ->
  locate w p = inr loc ->
  children w loc = [] ->
  _list_files (PStr p) w = (Ret ("Empty directory: " +:+ p), w).
Proof.
  intros Hdir Hloc Hnil.
  unfold _list_files, try_except.
  rewrite (bind_eq _ _ _ _ _ (file_at_exists _ _ _ Hdir)). cbn [negb].
  rewrite (bind_eq _ _ _ _ _ (file_at_listdir _ _ _ Hdir Hloc)).
  rewrite Hnil. reflexivity.
Qed.

(** X9.  A path that names a file: it exists, so [os.listdir] raises, and
    [list_files] reports ["Error listing files: ..."]. *)
Theorem list_files_of_file w p data :
  file_at w p = Some (File data) ->
  _list_files (PStr p) w = (Ret ("Error listing files: " +:+ str_exn (OSError ENOTDIR p)), w).
Proof.
  intros Hfile.
  pose proof Hfile as (loc & Hl & _ & _ & Hq)%file_at_lookup_path.
  unfold _list_files, try_except.
  rewrite (bind_eq _ _ _ _ _ (file_at_exists _ _ _ Hfile)). cbn [negb].
  unfold bind at 1. unfold listdir, bind, lift. now rewrite Hl, Hq.
Qed.

End Answers.

(** ** What [edit_file] does to the file system *)

Lemma well_formed_parent w loc n :
  well_formed w = true ->
  tree w !! loc = Some n -> node_at w (removelast loc) = Some Dir.
Proof.
  unfold well_formed. rewrite forallb_forall. intros Hall Hlook.
  assert (In loc (map_to_list (tree w)).*1) as Hin.
  { apply list_elem_of_In, list_elem_of_fmap. exists (loc, n).
    split; [reflexivity|]. now apply elem_of_map_to_list. }
  specialize (Hall _ Hin).
  now destruct (node_at w (removelast loc)) as [[data|]|].
Qed.

Lemma walk_snoc w comps c :
  forall cur,
    walk w cur (comps ++ [c]) =
      match walk w cur comps with
      | inl code => inl code
      | inr cur' => walk w cur' [c]
      end.
Proof.
  induction comps as [|d rest IH]; intros cur; [reflexivity|].
  cbn [app walk]. destruct (node_at w cur) as [[data|]|]; try reflexivity.
  destruct (_ || _); [apply IH|]. destruct (String.eqb d ".."); [apply IH|].
  destruct (_ <? _)%nat; [reflexivity|apply IH].
Qed.

Lemma split_on_last sep p :
  exists init l, Text.split_on sep p = init ++ [l].
Proof.
  assert (Text.split_on sep p <> []) as Hne.
  { destruct p as [|c p]; cbn [Text.split_on]; [discriminate|].
    destruct (Ascii.eqb c sep); [discriminate|].
    destruct (Text.split_on sep p); discriminate. }
  destruct (exists_last Hne) as (init & l & ->). eauto.
Qed.

(** In a well-formed tree, a path that resolves to a file ends in a proper
    name. *)
Lemma file_path_ends_in_name w p loc data :
  well_formed w = true ->
  locate w p = inr loc ->
  node_at w loc = Some (File data) ->
  names_directory (default ""%string (last (Text.split_on "/" p))) = false.
Proof.
  intros Hwf Hloc Hnode. unfold locate in Hloc.
  destruct (String.eqb p ""); [discriminate|].
  destruct (PATH_MAX <=? String.length p)%nat; [discriminate|].
  destruct (split_on_last "/" p) as (init & l & Hsplit).
  rewrite Hsplit in *. rewrite last_snoc.
  change (default ""%string (Some l)) with l.
  rewrite walk_snoc in Hloc.
  destruct (walk w _ init) as [code|cur]; [discriminate|].
  cbn [walk] in Hloc.
  destruct (node_at w cur) as [[d|]|] eqn:Hcur; try discriminate.
  unfold names_directory.
  destruct (String.eqb l "" || String.eqb l ".") eqn:Hhere.
  - injection Hloc as <-. congruence.
  - destruct (String.eqb l "..") eqn:Hup; [|reflexivity].
    injection Hloc as <-. exfalso.
    destruct cur as [|c cur]; [cbn in Hnode; discriminate|].
    assert (node_at w (removelast (c :: cur)) = Some Dir); [|congruence].
    now apply (well_formed_parent w (c :: cur) Dir).
Qed.

Lemma open_write_file p w loc :
  fspath (PStr p) = Ret p ->
  locate w p = inr loc ->
  node_at w loc <> Some Dir ->
  names_directory (default ""%string (last (Text.split_on "/" p))) = false ->
  open_write (PStr p) w = (Ret loc, set_node loc (File "") w).
Proof.
  intros Hnul Hloc Hnd Hname.
  unfold open_write, bind, lift. rewrite Hnul, Hloc, Hname.
  destruct (node_at w loc) as [[data|]|]; congruence.
Qed.

Lemma set_node_twice loc n1 n2 w :
  set_node loc n2 (set_node loc n1 w) = set_node loc n2 w.
Proof. unfold set_node. cbn [tree cwd]. now rewrite insert_insert_eq. Qed.

Lemma file_at_set_file w p loc text :
  fspath (PStr p) = Ret p ->
  locate w p = inr loc ->
  node_at w loc <> Some Dir ->
  file_at (set_node loc (File text) w) p = Some (File text).
Proof.
  intros Hnul Hloc Hnd.
  assert (loc <> []) as Hne by (intros ->; now apply Hnd).
  unfold file_at. rewrite Hnul.
  rewrite (locate_preserved w _ p loc); [|reflexivity| |exact Hloc].
  - now apply node_at_set_node_eq.
  - intros q Hq. destruct (decide (q = loc)) as [->|Hql]; [congruence|].
    now rewrite node_at_set_node_ne.
Qed.

Lemma has_char_split_on sep p :
  Text.has_char sep p = false -> Text.split_on sep p = [p].
Proof.
  induction p as [|c p IH]; [reflexivity|].
  cbn [Text.has_char Text.split_on]. intros [Hc Hp]%orb_false_iff.
  rewrite Hc, (IH Hp). reflexivity.
Qed.

Lemma has_char_cut_last_slash p :
  Text.has_char "/" p = false -> cut_last_slash p = (""%string, p).
Proof.
  induction p as [|c p IH]; [reflexivity|].
  cbn [Text.has_char cut_last_slash]. intros [Hc Hp]%orb_false_iff.
  rewrite (IH Hp). cbn [String.eqb negb]. now rewrite Hc.
Qed.

Lemma has_char_not_absolute p :
  Text.has_char "/" p = false -> is_absolute p = false.
Proof.
  destruct p as [|c p]; [reflexivity|].
  cbn [Text.has_char]. intros [Hc _]%orb_false_iff.
  unfold is_absolute. cbn [String.prefix].
  destruct (ascii_dec "/" c) as [<-|]; [discriminate|reflexivity].
Qed.

(** A plain name resolves to the entry of that name in the current
    directory, and has no directory part. *)
Lemma plain_name_resolves w p :
  plain_name p = true ->
  node_at w (cwd w) = Some Dir ->
  fspath (PStr p) = Ret p
  /\ locate w p = inr (cwd w ++ [p])
  /\ names_directory (default ""%string (last (Text.split_on "/" p))) = false
  /\ dirname (PStr p) = Ret ""%string.
Proof.
  unfold plain_name.
  intros [[[[Hslash%negb_true_iff Hnul%negb_true_iff]%andb_true_iff
            Hname%negb_true_iff]%andb_true_iff
           Hutf]%andb_true_iff Hlen%Nat.leb_le]%andb_true_iff Hcwd.
  split; [now apply fspath_text|]. rewrite (has_char_split_on _ _ Hslash).
  change (default ""%string (last [p])) with p.
  split; [|split; [exact Hname|]].
  - unfold locate. rewrite (has_char_split_on _ _ Hslash), (has_char_not_absolute _ Hslash).
    pose proof Hname as Hname'. unfold names_directory in Hname'.
    apply orb_false_iff in Hname' as [[He _]%orb_false_iff _].
    rewrite He.
    assert ((PATH_MAX <=? String.length p)%nat = false) as ->
      by (apply Nat.leb_gt; unfold PATH_MAX, NAME_MAX in *; lia).
    now apply walk_down.
  - unfold dirname, split. rewrite (has_char_cut_last_slash _ Hslash). reflexivity.
Qed.

Section Editing.
Context {exn_text : ExnStr}.

(** X10.  Replace mode.  In a well-formed tree, for a file whose text contains the
    non-empty [old_text], and when the new text can be encoded: [edit_file]
    returns ["Successfully edited <path>"], and the only change to the file
    system is that the file now holds the text with every occurrence of
    [old_text] replaced. *)
Theorem edit_file_replaces w p loc data content old_text new_text :
  well_formed w = true ->
  file_at w p = Some (File data) ->
  locate w p = inr loc ->
  decode data = Some content ->
  old_text <> ""%string ->
  Text.contains old_text content = true ->
  Text.utf8_valid (Text.replace old_text new_text content) = true ->
  _edit_file (PStr p) (PStr old_text) (PStr new_text) w =
    (Ret ("Successfully edited " +:+ p),
     set_node loc (File (Text.replace old_text new_text content)) w)
  /\ file_at (set_node loc (File (Text.replace old_text new_text content)) w) p
     = Some (File (Text.replace old_text new_text content)).
Proof.
  intros Hwf Hfile Hloc Hdec Hne%String.eqb_neq Hin Hvalid.
  pose proof Hfile as (loc' & Hl & Hloc' & Hnode & Hq)%file_at_lookup_path.
  assert (loc' = loc) as -> by congruence.
  pose proof Hq as Hnul.
  assert (node_at w loc <> Some Dir) as Hnd by congruence.
  pose proof (file_path_ends_in_name _ _ _ _ Hwf Hloc Hnode) as Hname.
  destruct (file_at_open_read _ _ _ Hfile) as (loc' & Ho & Hn).
  split; [|now apply file_at_set_file].
  unfold _edit_file, try_except.
  rewrite (bind_eq _ _ _ _ _ (file_at_exists _ _ _ Hfile)).
  rewrite (bind_eq _ _ w true w) by (unfold lift; cbn [truthy]; now rewrite Hne).
  rewrite (bind_eq _ _ _ _ _ Ho).
  rewrite (bind_eq _ _ w content w) by (unfold read; now rewrite Hn, Hdec).
  rewrite (bind_eq _ _ w true w) by (unfold lift; cbn [py_in]; now rewrite Hin).
  cbn [negb].
  rewrite (bind_eq _ _ w (Text.replace old_text new_text content) w) by reflexivity.
  rewrite (bind_eq _ _ _ _ _ (open_write_file _ _ _ Hnul Hloc Hnd Hname)).
  unfold bind at 1, write at 1. rewrite Hvalid, set_node_twice. reflexivity.
Qed.

(** X11.  Create mode on a plain name in the current directory (text of at
    most [NAME_MAX] bytes, as [plain_name] says).  When the name is free, or
    names a file and [old_text] is empty or absent, and [new_text] can be
    encoded: [edit_file] returns ["Successfully created <path>"] and the
    only change is that the file holds exactly [new_text]. *)
Theorem edit_file_creates w p old_text new_text :
  plain_name p = true ->
  node_at w (cwd w) = Some Dir ->
  node_at w (cwd w ++ [p]) <> Some Dir ->
  node_at w (cwd w ++ [p]) = None \/ truthy old_text = Ret false ->
  Text.utf8_valid new_text = true ->
  _edit_file (PStr p) old_text (PStr new_text) w =
    (Ret ("Successfully created " +:+ p), set_node (cwd w ++ [p]) (File new_text) w)
  /\ file_at (set_node (cwd w ++ [p]) (File new_text) w) p = Some (File new_text).
Proof.
  intros Hplain Hcwd Hnd Hmode Hvalid.
  destruct (plain_name_resolves _ _ Hplain Hcwd) as (Hnul & Hloc & Hname & Hdir).
  split; [|now apply file_at_set_file].
  assert (exists present,
            exists_ (PStr p) w = (Ret present, w)
            /\ (if present : bool then lift (truthy old_text) else ret false) w
               = (Ret false, w)) as (present & Hex & Hrep).
  { destruct (node_at w (cwd w ++ [p])) as [[data|]|] eqn:Hnode.
    - exists true. split.
      + apply (file_at_exists _ _ (File data)). unfold file_at.
        now rewrite Hnul, Hloc.
      + destruct Hmode as [?| ->]; [discriminate|reflexivity].
    - congruence.
    - exists false. split; [|reflexivity].
      apply file_at_none_exists. unfold file_at.
      now rewrite Hnul, Hloc. }
  unfold _edit_file, try_except.
  rewrite (bind_eq _ _ _ _ _ Hex), (bind_eq _ _ _ _ _ Hrep).
  rewrite (bind_eq _ _ w ""%string w) by (unfold lift; now rewrite Hdir).
  cbn [String.eqb negb].
  rewrite (bind_eq _ _ w tt w) by reflexivity.
  rewrite (bind_eq _ _ _ _ _ (open_write_file _ _ _ Hnul Hloc Hnd Hname)).
  unfold bind at 1, write at 1. rewrite Hvalid, set_node_twice. reflexivity.
Qed.

(** X12.  Create mode on a plain name in the current directory, when the
    write fails.  If [new_text] is not a string, or cannot be encoded, the
    file has already been created or truncated by [open]: [edit_file]
    returns ["Error editing file: ..."] and leaves the file empty. *)
Theorem edit_file_failed_write_empties w p old_text new_text :
  plain_name p = true ->
  node_at w (cwd w) = Some Dir ->
  node_at w (cwd w ++ [p]) <> Some Dir ->
  node_at w (cwd w ++ [p]) = None \/ truthy old_text = Ret false ->
  (forall text, new_text = PStr text -> Text.utf8_valid text = false) ->
  exists e,
    _edit_file (PStr p) old_text new_text w =
      (Ret ("Error editing file: " +:+ str_exn e), set_node (cwd w ++ [p]) (File "") w)
    /\ file_at (set_node (cwd w ++ [p]) (File "") w) p = Some (File "").
Proof.
  intros Hplain Hcwd Hnd Hmode Hbad.
  destruct (plain_name_resolves _ _ Hplain Hcwd) as (Hnul & Hloc & Hname & Hdir).
  assert (exists present,
            exists_ (PStr p) w = (Ret present, w)
            /\ (if present : bool then lift (truthy old_text) else ret false) w
               = (Ret false, w)) as (present & Hex & Hrep).
  { destruct (node_at w (cwd w ++ [p])) as [[data|]|] eqn:Hnode.
    - exists true. split.
      + apply (file_at_exists _ _ (File data)). unfold file_at.
        now rewrite Hnul, Hloc.
      + destruct Hmode as [?| ->]; [discriminate|reflexivity].
    - congruence.
    - exists false. split; [|reflexivity].
      apply file_at_none_exists. unfold file_at.
      now rewrite Hnul, Hloc. }
  assert (exists e, forall handle w1, write handle new_text w1 = (Raise e, w1)) as [e Hwrite].
  { destruct new_text as [| | | |text| |];
      try (exists (TypeError "write"); reflexivity).
    exists UnicodeEncodeError. intros handle w1. unfold write.
    now rewrite (Hbad text eq_refl). }
  exists e. split; [|now apply file_at_set_file].
  unfold _edit_file, try_except.
  rewrite (bind_eq _ _ _ _ _ Hex), (bind_eq _ _ _ _ _ Hrep).
  rewrite (bind_eq _ _ w ""%string w) by (unfold lift; now rewrite Hdir).
  cbn [String.eqb negb].
  rewrite (bind_eq _ _ w tt w) by reflexivity.
  rewrite (bind_eq _ _ _ _ _ (open_write_file _ _ _ Hnul Hloc Hnd Hname)).
  unfold bind at 1. rewrite Hwrite. reflexivity.
Qed.

End Editing.

(** ** The executor and the declared tools *)

Section Executor.
Context {exn_text : ExnStr}.

Lemma try_except_transparent {S A} (m : M S A) (h : exn -> M S A) s :
  (forall e, fst (m s) <> Raise e) -> try_except m h s = m s.
Proof.
  unfold try_except. intros Hno. destruct (m s) as [[a|e|] s1]; try reflexivity.
  now destruct (Hno e).
Qed.

(** X13.  With the keys it reads present, the executor's answer is the tool's own
    answer, unchanged: [read_file] gets [path]; [list_files] gets [path], or
    ["."] when [path] is falsy; [edit_file] gets [path], [old_text] (the empty
    string when the key is absent) and [new_text]. *)
Theorem execute_tool_dispatch (items : list (string * pyval)) (path : pyval) (w : world) :
  dict_lookup "path" items = Some path ->
  _execute_tool "read_file" (PDict items) w = _read_file path w
  /\ (forall given, truthy path = Ret given ->
        _execute_tool "list_files" (PDict items) w
        = _list_files (if given : bool then path else PStr ".") w)
  /\ (forall new_text, dict_lookup "new_text" items = Some new_text ->
        _execute_tool "edit_file" (PDict items) w
        = _edit_file path (default (PStr "") (dict_lookup "old_text" items)) new_text w).
Proof.
  intros Hpath.
  assert (subscript (PDict items) "path" = Ret path) as Hsub
    by (cbn [subscript]; now rewrite Hpath).
  split; [|split].
  - unfold _execute_tool. cbn [String.eqb Ascii.eqb Bool.eqb].
    rewrite try_except_transparent.
    + now rewrite (bind_eq _ _ w path w) by (unfold lift; now rewrite Hsub).
    + intros e. rewrite (bind_eq _ _ w path w) by (unfold lift; now rewrite Hsub).
      apply read_file_no_raise.
  - intros given Hgiven. unfold _execute_tool. cbn [String.eqb Ascii.eqb Bool.eqb].
    assert (forall k : pyval -> M world string,
              (p <- lift (subscript (PDict items) "path") ;;
               g <- lift (truthy p) ;; k (if g : bool then p else PStr ".")) w
              = k (if given then path else PStr ".") w) as Hstep.
    { intros k. rewrite (bind_eq _ _ w path w) by (unfold lift; now rewrite Hsub).
      now rewrite (bind_eq _ _ w given w) by (unfold lift; now rewrite Hgiven). }
    rewrite try_except_transparent; [apply (Hstep _list_files)|].
    intros e. rewrite (Hstep _list_files). apply list_files_no_raise.
  - intros new_text Hnew. unfold _execute_tool. cbn [String.eqb Ascii.eqb Bool.eqb].
    assert (forall k : pyval -> pyval -> pyval -> M world string,
              (p <- lift (subscript (PDict items) "path") ;;
               o <- lift (get_default (PDict items) "old_text" (PStr "")) ;;
               n <- lift (subscript (PDict items) "new_text") ;; k p o n) w
              = k path (default (PStr "") (dict_lookup "old_text" items)) new_text w)
      as Hstep.
    { intros k. rewrite (bind_eq _ _ w path w) by (unfold lift; now rewrite Hsub).
      rewrite (bind_eq _ _ w (default (PStr "") (dict_lookup "old_text" items)) w)
        by reflexivity.
      now rewrite (bind_eq _ _ w new_text w)
        by (unfold lift; cbn [subscript]; now rewrite Hnew). }
    rewrite try_except_transparent; [apply (Hstep _edit_file)|].
    intros e. rewrite (Hstep _edit_file). apply edit_file_no_raise.
Qed.

(** X14.  Without what it needs, a declared tool is not run: a missing [path] key,
    a missing [new_text] key for [edit_file], or an input that is not a
    [dict], gives ["Error executing <tool>: ..."] with the text of the
    [KeyError] or [TypeError], and the file system is untouched. *)
Theorem execute_tool_missing_key (tool_name : string) (tool_input : pyval) (w : world) :
  tool_name ∈ ["read_file"; "list_files"; "edit_file"]%string ->
  (forall items, tool_input = PDict items -> dict_lookup "path" items = None ->
     _execute_tool tool_name tool_input w
     = (Ret ("Error executing " +:+ tool_name +:+ ": " +:+ str_exn (KeyError "path")), w))
  /\ (forall items path, tool_input = PDict items ->
        dict_lookup "path" items = Some path ->
        dict_lookup "new_text" items = None ->
        _execute_tool "edit_file" tool_input w
        = (Ret ("Error executing edit_file: " +:+ str_exn (KeyError "new_text")), w))
  /\ ((forall items, tool_input <> PDict items) ->
      _execute_tool tool_name tool_input w
      = (Ret ("Error executing " +:+ tool_name +:+ ": " +:+ str_exn (TypeError "subscript")), w)).
Proof.
  intros Hname.
  assert (tool_name = "read_file" \/ tool_name = "list_files" \/ tool_name = "edit_file")%string
    as Hcases.
  { repeat (apply elem_of_cons in Hname as [->|Hname]; auto).
    now apply elem_of_nil in Hname. }
  split; [|split].
  - intros items -> Hpath.
    assert (subscript (PDict items) "path" = Raise (KeyError "path")) as Hsub
      by (cbn [subscript]; now rewrite Hpath).
    destruct Hcases as [-> | [-> | ->]];
      unfold _execute_tool, try_except, bind, lift; now rewrite Hsub.
  - intros items path -> Hpath Hnew.
    unfold _execute_tool, try_except, bind, lift. cbn [subscript get_default].
    now rewrite Hpath, Hnew.
  - intros Hnot.
    assert (subscript tool_input "path" = Raise (TypeError "subscript")) as Hsub.
    { destruct tool_input; try reflexivity. now destruct (Hnot items). }
    destruct Hcases as [-> | [-> | ->]];
      unfold _execute_tool, try_except, bind, lift; now rewrite Hsub.
Qed.

End Executor.

(** ** The first character of a tool's answer *)

Section Registry.
Context {exn_text : ExnStr}.

Lemma read_file_starts v w s w' :
  _read_file v w = (Ret s, w') ->
  String.get 0 s = Some "F"%char \/ String.get 0 s = Some "E"%char.
Proof.
  intros Hrun. unfold _read_file in Hrun.
  apply try_except_ret_inv in Hrun as [Hbody | (e & w1 & _ & Hh)].
  - bind_inv Hbody f w1 Hopen. bind_inv Hbody content w2 Hread.
    bind_inv Hbody p w3 Hp. apply ret_inv in Hbody as [<- _]. now left.
  - destruct (is_FileNotFoundError e).
    + bind_inv Hh p w2 Hp. apply ret_inv in Hh as [<- _]. now left.
    + apply ret_inv in Hh as [<- _]. now right.
Qed.

Lemma list_files_starts v w s w' :
  _list_files v w = (Ret s, w') ->
  String.get 0 s = Some "P"%char \/ String.get 0 s = Some "E"%char
  \/ String.get 0 s = Some "C"%char.
Proof.
  intros Hrun. unfold _list_files in Hrun.
  apply try_except_ret_inv in Hrun as [Hbody | (e & w1 & _ & Hh)].
  - bind_inv Hbody present w1 Hex. destruct (negb present).
    + bind_inv Hbody p w2 Hp. apply ret_inv in Hbody as [<- _]. now left.
    + bind_inv Hbody names w2 Hls. bind_inv Hbody items w3 Hitems.
      bind_inv Hbody p w4 Hp.
      destruct items; apply ret_inv in Hbody as [<- _]; auto.
  - apply ret_inv in Hh as [<- _]. auto.
Qed.

Lemma edit_file_starts v v1 v2 w s w' :
  _edit_file v v1 v2 w = (Ret s, w') ->
  String.get 0 s = Some "T"%char \/ String.get 0 s = Some "S"%char
  \/ String.get 0 s = Some "E"%char.
Proof.
  intros Hrun. unfold _edit_file in Hrun.
  apply try_except_ret_inv in Hrun as [Hbody | (e & w1 & _ & Hh)].
  - bind_inv Hbody present w1 Hex. bind_inv Hbody replacing w2 Hrep.
    destruct replacing.
    + bind_inv Hbody f w3 Hopen. bind_inv Hbody content w4 Hread.
      bind_inv Hbody found w5 Hin. destruct (negb found).
      * bind_inv Hbody o w6 Ho. apply ret_inv in Hbody as [<- _]. now left.
      * bind_inv Hbody content' w6 Hrepl. bind_inv Hbody f' w7 Hopen'.
        bind_inv Hbody u w8 Hwrite. bind_inv Hbody p w9 Hp.
        apply ret_inv in Hbody as [<- _]. auto.
    + bind_inv Hbody dir_name w3 Hdir. bind_inv Hbody u w4 Hmk.
      bind_inv Hbody f w5 Hopen. bind_inv Hbody u' w6 Hwrite.
      bind_inv Hbody p w7 Hp. apply ret_inv in Hbody as [<- _]. auto.
  - apply ret_inv in Hh as [<- _]. auto.
Qed.

(** X15.  The executor answers ["Unknown tool: <name>"] exactly for the names that
    [_setup_tools] does not declare: every declared tool is dispatched, and
    nothing else is. *)
Theorem unknown_iff_undeclared (tool_name : string) (tool_input : pyval) (w : world) :
  fst (_execute_tool tool_name tool_input w) = Ret ("Unknown tool: " +:+ tool_name)
  <-> tool_name ∉ (Declared.name <$> _setup_tools).
Proof.
  change (Declared.name <$> _setup_tools)
    with ["read_file"; "list_files"; "edit_file"]%string.
  split.
  - intros Hres Hin.
    destruct (_execute_tool tool_name tool_input w) as [r w'] eqn:Hrun.
    cbn [fst] in Hres. subst r.
    assert (String.get 0 ("Unknown tool: " +:+ tool_name) = Some "U"%char) as HU
      by reflexivity.
    unfold _execute_tool in Hrun.
    apply try_except_ret_inv in Hrun as [Hbody | (e & w1 & _ & Hh)].
    + repeat (apply elem_of_cons in Hin as [->|Hin]);
        [| | |now apply elem_of_nil in Hin];
        cbn [String.eqb Ascii.eqb Bool.eqb] in Hbody.
      * bind_inv Hbody path w1 Hp.
        apply read_file_starts in Hbody as [H1|H1]; rewrite HU in H1; discriminate.
      * bind_inv Hbody path w1 Hp. bind_inv Hbody given w2 Hg.
        apply list_files_starts in Hbody as [H1|[H1|H1]]; rewrite HU in H1; discriminate.
      * bind_inv Hbody path w1 Hp. bind_inv Hbody o w2 Ho. bind_inv Hbody n w3 Hn.
        apply edit_file_starts in Hbody as [H1|[H1|H1]]; rewrite HU in H1; discriminate.
    + apply ret_inv in Hh as [Heq _].
      apply (f_equal (String.get 0)) in Heq. rewrite HU in Heq. discriminate.
  - intros Hnot.
    assert (String.eqb tool_name "read_file" = false
            /\ String.eqb tool_name "list_files" = false
            /\ String.eqb tool_name "edit_file" = false) as (H1 & H2 & H3).
    { repeat split; apply String.eqb_neq; intros ->; apply Hnot;
        repeat constructor. }
    unfold _execute_tool, try_except. now rewrite H1, H2, H3.
Qed.

End Registry.

(** * Further properties of the chat loop *)

Lemma tool_runs_app (a b : list event) : tool_runs (a ++ b) = tool_runs a ++ tool_runs b.
Proof. apply omap_app. Qed.

Section Loop.
Context {exn_text : ExnStr} {service : Service}.

Lemma on_files_execute tool_name tool_input st :
  on_files (_execute_tool tool_name tool_input) st =
    (fst (_execute_tool tool_name tool_input (files st)),
     State (model st) (input st) (session st)
           (snd (_execute_tool tool_name tool_input (files st))) (trace st)).
Proof.
  unfold on_files. now destruct (_execute_tool tool_name tool_input (files st)).
Qed.

(** The tool loop when it returns: one result per call, in the order of the
    calls and with their ids, and the tools were run in that order. *)
Lemma run_function_calls_ret function_calls :
  forall st results st',
    run_function_calls function_calls st = (Ret results, st') ->
    Forall2 answers function_calls results
    /\ input st' = input st /\ model st' = model st
    /\ exists evs, trace st' = trace st ++ evs
                   /\ (tool_runs evs).*1 = name <$> function_calls
                   /\ requests evs = [].
Proof.
  induction function_calls as [|fc rest IH]; intros st results st' Hrun.
  - apply ret_inv in Hrun as [<- ->]. repeat split; [constructor|].
    exists []. now rewrite app_nil_r.
  - cbn [run_function_calls] in Hrun.
    bind_inv Hrun tool_input st1 Hloads. apply lift_ret_inv in Hloads as [_ ->].
    bind_inv Hrun u st2 Hrec. injection Hrec as _ <-.
    bind_inv Hrun out st3 Hexec. rewrite on_files_execute in Hexec.
    injection Hexec as _ <-.
    bind_inv Hrun others st4 Hrest. apply ret_inv in Hrun as [<- ->].
    apply IH in Hrest as (Hpairs & Hi & Hm & evs & Ht & Hnames & Hreq).
    cbn [input model trace] in *.
    split; [constructor; [now exists out|exact Hpairs]|].
    split; [exact Hi|]. split; [exact Hm|].
    exists (ToolRun (name fc) tool_input :: evs).
    rewrite Ht, <- app_assoc. split; [reflexivity|]. split; [|exact Hreq].
    cbn. now rewrite <- Hnames.
Qed.

(** The tool loop when it raises: the exception comes from parsing the
    arguments of one call; the calls before it were run, in order; that call
    and the calls after it were not. *)
Lemma run_function_calls_raise function_calls :
  forall st e st',
    run_function_calls function_calls st = (Raise e, st') ->
    input st' = input st /\ model st' = model st
    /\ exists before function_call after evs,
         function_calls = before ++ function_call :: after
         /\ Json.loads (arguments_or_empty function_call) = Raise e
         /\ trace st' = trace st ++ evs
         /\ (tool_runs evs).*1 = name <$> before
         /\ requests evs = [].
Proof.
  induction function_calls as [|fc rest IH]; intros st e st' Hrun; [discriminate|].
  cbn [run_function_calls] in Hrun. unfold bind at 1, lift at 1 in Hrun.
  destruct (Json.loads (arguments_or_empty fc)) as [tool_input|e0|] eqn:Hloads;
    [|injection Hrun as <- <-|discriminate].
  2:{ repeat split. exists [], fc, rest, []. rewrite app_nil_r. auto. }
  unfold bind at 1, record at 1 in Hrun. unfold bind at 1, on_files at 1 in Hrun.
  cbn [files model input session trace] in Hrun.
  destruct (_execute_tool (name fc) tool_input (files st)) as [[out|e1|] w1] eqn:Hexec;
    [| |discriminate].
  2:{ exfalso. pose proof (execute_tool_no_raise (name fc) tool_input (files st) e1) as Hno.
      rewrite Hexec in Hno. now apply Hno. }
  unfold bind at 1 in Hrun.
  match type of Hrun with context [run_function_calls rest ?s] =>
    destruct (run_function_calls rest s) as [[others|e2|] st2] eqn:Hrest end;
    [discriminate| |discriminate].
  injection Hrun as <- <-.
  apply IH in Hrest as (Hi & Hm & before & call & after & evs & -> & Hbad & Ht & Hnames & Hreq).
  cbn [input model trace] in *. split; [exact Hi|]. split; [exact Hm|].
  exists (fc :: before), call, after, (ToolRun (name fc) tool_input :: evs).
  rewrite Ht, <- app_assoc. repeat split; auto.
  cbn. now rewrite <- Hnames.
Qed.

(** X16.  A turn of the loop that goes round again has appended the items of the
    response and then exactly one [function_call_output] per function call of
    the response, in the order of the calls and with their call ids; the
    tools were run in that order. *)
Theorem iteration_pairs_calls (st st' : state) :
  iteration st = (Ret None, st') ->
  exists response results evs,
    input st' = input st ++ (OutputItem <$> output response) ++ results
    /\ Forall2 answers (keep_function_calls (output response)) results
    /\ trace st' = trace st ++ Request (make_params st) (Respond response) :: evs
    /\ (tool_runs evs).*1 = name <$> keep_function_calls (output response)
    /\ requests evs = [].
Proof.
  intros Hit. unfold iteration in Hit.
  apply try_except_ret_inv in Hit as [Hbody | (e & st1 & _ & Hh)];
    [|apply ret_inv in Hh as [? _]; discriminate].
  bind_inv Hbody rsp st1 Hcreate.
  unfold responses_create in Hcreate.
  destruct (create (session st) (make_params st)) as [reply c] eqn:Hc.
  destruct reply as [rsp'|e]; [|discriminate]. injection Hcreate as -> <-.
  bind_inv Hbody u st2 Hext. injection Hext as _ <-.
  destruct (keep_function_calls (output rsp)) as [|fc fcs] eqn:Hcalls.
  { apply ret_inv in Hbody as [? _]. discriminate. }
  bind_inv Hbody results st3 Hrun.
  apply run_function_calls_ret in Hrun as (Hpairs & Hi & _ & evs & Ht & Hnames & Hreq).
  cbn [input model trace files session] in *.
  assert (input st' = input st3 ++ results /\ trace st' = trace st3) as [Hi' Ht'].
  { bind_inv Hbody u' st4 Hadd. apply ret_inv in Hbody as [_ ->].
    destruct results as [|r rs].
    - apply ret_inv in Hadd as [_ ->]. now rewrite app_nil_r.
    - injection Hadd as _ <-. auto. }
  exists rsp, results, evs. rewrite Hcalls.
  rewrite Hi', Ht', Hi, Ht, <- !app_assoc. repeat split; auto.
Qed.

End Loop.

Section Runs.
Context {exn_text : ExnStr} {service : Service}.

Lemma run_function_calls_app before rest :
  forall st,
    run_function_calls (before ++ rest) st =
      (first <- run_function_calls before ;;
       others <- run_function_calls rest ;;
       ret (first ++ others)) st.
Proof.
  induction before as [|fc before IH]; intros st; cbn [app run_function_calls].
  - unfold bind, ret.
    now destruct (run_function_calls rest st) as [[others|e|] st1].
  - unfold bind, lift, record, on_files, ret in *.
    cbn [files model input session trace].
    destruct (Json.loads (arguments_or_empty fc)) as [tool_input|e|]; try reflexivity.
    destruct (_execute_tool (name fc) tool_input (files st)) as [[out|e|] w1];
      try reflexivity.
    rewrite IH.
    match goal with |- context [run_function_calls before ?s] =>
      destruct (run_function_calls before s) as [[first|e|] st1] end; try reflexivity.
    now destruct (run_function_calls rest st1) as [[others|e|] st2].
Qed.

(** The turn of the loop that ends the chat with the model's answer. *)
Lemma iteration_answer st r c :
  create (session st) (make_params st) = (Respond r, c) ->
  keep_function_calls (output r) = [] ->
  iteration st =
    (Ret (Some (default ""%string (output_text r))),
     State (model st) (input st ++ (OutputItem <$> output r)) c (files st)
           (trace st ++ [Request (make_params st) (Respond r)])).
Proof.
  intros Hcreate Hcalls. unfold iteration, try_except.
  unfold bind at 1, responses_create at 1. rewrite Hcreate.
  unfold bind at 1, extend_input at 1. now rewrite Hcalls.
Qed.

(** The turn of the loop that runs the tools of a response and goes round
    again. *)
Lemma iteration_round st r c results st2 :
  create (session st) (make_params st) = (Respond r, c) ->
  keep_function_calls (output r) <> [] ->
  run_function_calls (keep_function_calls (output r))
    (State (model st) (input st ++ (OutputItem <$> output r)) c (files st)
           (trace st ++ [Request (make_params st) (Respond r)]))
  = (Ret results, st2) ->
  iteration st =
    (Ret None,
     State (model st2) (input st2 ++ results) (session st2) (files st2) (trace st2)).
Proof.
  intros Hcreate Hcalls Hrun. unfold iteration, try_except.
  unfold bind at 1, responses_create at 1. rewrite Hcreate.
  unfold bind at 1, extend_input at 1. cbn [files model input session trace].
  destruct (keep_function_calls (output r)) as [|fc fcs] eqn:Hk; [congruence|].
  rewrite (bind_eq _ _ _ _ _ Hrun).
  pose proof (run_function_calls_ret _ _ _ _ Hrun) as (Hpairs & _).
  destruct results as [|t ts]; [inversion Hpairs|].
  reflexivity.
Qed.

(** X17.  One tool call, then the answer.  When the first response has exactly one
    function call, whose arguments parse and whose tool returns, and the
    second response has none: [chat] makes two service calls and one tool
    execution and returns the second response's text; the conversation ends
    with the user turn, the first response's items, the tool result carrying
    the call's id, and the second response's items, in this order. *)
Theorem chat_tool_then_answer (st : state) (user_input : string)
    (r1 r2 : response) (c1 c2 : client) (function_call : output_item)
    (tool_input : pyval) (out : string) (w1 : world) (fuel : nat) :
  let started := State (model st) (input st ++ [UserMessage user_input])
                       (session st) (files st) (trace st) in
  let turns := input started ++ (OutputItem <$> output r1)
               ++ [FunctionCallOutput (call_id function_call) out] in
  let events := trace st ++ [Request (make_params started) (Respond r1);
                             ToolRun (name function_call) tool_input] in
  let resumed := State (model st) turns c1 w1 events in
  create (session st) (make_params started) = (Respond r1, c1) ->
  keep_function_calls (output r1) = [function_call] ->
  Json.loads (arguments_or_empty function_call) = Ret tool_input ->
  _execute_tool (name function_call) tool_input (files st) = (Ret out, w1) ->
  create c1 (make_params resumed) = (Respond r2, c2) ->
  keep_function_calls (output r2) = [] ->
  chat (S (S fuel)) user_input st =
    (Returned (default ""%string (output_text r2)),
     State (model st) (turns ++ (OutputItem <$> output r2)) c2 w1
           (events ++ [Request (make_params resumed) (Respond r2)])).
Proof.
  intros started turns events resumed Hc1 Hk1 Hloads Hexec Hc2 Hk2.
  unfold chat. fold started. cbn [loop].
  assert (iteration started = (Ret None, resumed)) as Hfirst.
  { assert (run_function_calls (keep_function_calls (output r1))
              (State (model started) (input started ++ (OutputItem <$> output r1)) c1
                     (files started)
                     (trace started ++ [Request (make_params started) (Respond r1)]))
            = (Ret [FunctionCallOutput (call_id function_call) out],
               State (model st) (input started ++ (OutputItem <$> output r1)) c1 w1 events))
      as Hrun.
    { rewrite Hk1. cbn [run_function_calls].
      unfold bind at 1, lift at 1. rewrite Hloads.
      unfold bind at 1, record at 1. unfold bind at 1, on_files at 1.
      cbn [files model input session trace started]. rewrite Hexec.
      unfold bind, ret, events. now rewrite <- (app_assoc (trace st)). }
    rewrite (iteration_round started r1 c1 _ _ Hc1 ltac:(rewrite Hk1; discriminate) Hrun).
    unfold resumed, turns. cbn [files model input session trace].
    now rewrite <- app_assoc. }
  rewrite Hfirst.
  now rewrite (iteration_answer resumed r2 c2 Hc2 Hk2).
Qed.

(** X18.  A call whose arguments do not parse, after calls that ran.  The chat ends
    with ["Error: ..."] and the text of the parse error; the calls before the
    bad one have run and their effects on the file system stay; the bad call
    and the calls after it are not run; and none of the batch's results is
    appended: the conversation ends with the response's items. *)
Theorem chat_malformed_call_drops_results (st : state) (user_input : string)
    (r : response) (c : client) (before after : list output_item)
    (function_call : output_item) (results : list turn) (st2 : state)
    (e : exn) (fuel : nat) :
  let started := State (model st) (input st ++ [UserMessage user_input])
                       (session st) (files st) (trace st) in
  let received := State (model st) (input started ++ (OutputItem <$> output r)) c
                        (files st)
                        (trace st ++ [Request (make_params started) (Respond r)]) in
  create (session st) (make_params started) = (Respond r, c) ->
  keep_function_calls (output r) = before ++ function_call :: after ->
  run_function_calls before received = (Ret results, st2) ->
  Json.loads (arguments_or_empty function_call) = Raise e ->
  chat (S fuel) user_input st = (Returned ("Error: " +:+ str_exn e), st2)
  /\ input st2 = input started ++ (OutputItem <$> output r)
  /\ exists evs,
       trace st2 = trace received ++ evs
       /\ (tool_runs evs).*1 = name <$> before
       /\ requests evs = [].
Proof.
  intros started received Hcreate Hcalls Hbefore Hbad.
  pose proof (run_function_calls_ret _ _ _ _ Hbefore) as (_ & Hi & _ & evs & Ht & Hn & Hr).
  split; [|split; [exact Hi|now exists evs]].
  unfold chat. fold started. cbn [loop].
  assert (iteration started = (Ret (Some ("Error: " +:+ str_exn e)), st2)) as ->;
    [|reflexivity].
  change (session st) with (session started) in Hcreate.
  unfold iteration, try_except.
  unfold bind at 1, responses_create at 1. rewrite Hcreate.
  unfold bind at 1, extend_input at 1.
  change (State (model started) (input started ++ (OutputItem <$> output r)) c
                (files started)
                (trace started ++ [Request (make_params started) (Respond r)]))
    with received.
  rewrite Hcalls.
  destruct (before ++ function_call :: after) as [|fc fcs] eqn:Hsplit.
  { now destruct before. }
  rewrite <- Hsplit. unfold bind at 1. rewrite run_function_calls_app.
  rewrite (bind_eq _ _ _ _ _ Hbefore).
  cbn [run_function_calls]. unfold bind at 1 2, lift at 1. now rewrite Hbad.
Qed.

(** X19.  No exception leaves [chat]: whatever the service and the tools do, the
    call returns a string, is still looping when the fuel ends, or leaves the
    model. *)
Theorem chat_never_raises (fuel : nat) (user_input : string) (st : state) (e : exn) :
  fst (chat fuel user_input st) <> Escaped e.
Proof. unfold chat. apply loop_no_escape. Qed.

Lemma filter_users_outputs (items : list output_item) :
  List.filter is_user (OutputItem <$> items) = [].
Proof. induction items as [|i items IH]; [reflexivity|exact IH]. Qed.

Lemma filter_users_answers function_calls results :
  Forall2 answers function_calls results -> List.filter is_user results = [].
Proof.
  induction 1 as [|fc t fcs ts [out ->] _ IH]; [reflexivity|exact IH].
Qed.

(** A turn of the loop appends no user message and keeps the model. *)
Lemma iteration_keeps_users st r st' :
  iteration st = (r, st') ->
  model st' = model st
  /\ List.filter is_user (input st') = List.filter is_user (input st).
Proof.
  unfold iteration, try_except. unfold bind at 1, responses_create at 1.
  destruct (create (session st) (make_params st)) as [reply c].
  destruct reply as [rsp|e]; [|now intros [= <- <-]].
  unfold bind at 1, extend_input at 1. cbn [files model input session trace].
  assert (List.filter is_user (input st ++ (OutputItem <$> output rsp))
          = List.filter is_user (input st)) as Hsame.
  { now rewrite List.filter_app, filter_users_outputs, app_nil_r. }
  destruct (keep_function_calls (output rsp)) as [|fc fcs].
  { now intros [= <- <-]. }
  unfold bind at 1.
  match goal with |- context [run_function_calls (fc :: fcs) ?s] =>
    destruct (run_function_calls (fc :: fcs) s) as [r2 st2] eqn:Hrun end.
  pose proof (run_function_calls_grows _ _ _ _ Hrun) as (_ & evs & (Hm & Hi & _) & _).
  cbn [files model input session trace] in *. rewrite app_nil_r in Hi.
  destruct r2 as [results|e|].
  - apply run_function_calls_ret in Hrun as (Hpairs & _).
    unfold bind at 1. destruct results as [|t ts].
    + intros [= <- <-]. now rewrite Hm, Hi.
    + unfold extend_input at 1. intros [= <- <-]. cbn [model input].
      rewrite Hm, Hi, List.filter_app, (filter_users_answers _ _ Hpairs), app_nil_r.
      auto.
  - intros [= <- <-]. now rewrite Hm, Hi.
  - intros [= <- <-]. now rewrite Hm, Hi.
Qed.

Lemma loop_metadata fuel :
  forall st o st',
    loop fuel st = (o, st') ->
    exists evs,
      trace st' = trace st ++ evs
      /\ forall p r, Request p r ∈ evs ->
           params_model p = model st
           /\ conversation_turn p = List.length (List.filter is_user (input st))
           /\ reasoning p = _is_reasoning_model (model st).
Proof.
  induction fuel as [|fuel IH]; intros st o st'; cbn [loop].
  - intros [= <- <-]. exists []. rewrite app_nil_r. split; [reflexivity|].
    intros p r Hin. now apply elem_of_nil in Hin.
  - destruct (iteration st) as [r st1] eqn:Hit.
    destruct (iteration_grows _ _ _ Hit) as (reply & turns & evs1 & (_ & _ & Ht) & Htools & _).
    destruct (iteration_keeps_users _ _ _ Hit) as [Hm Hu].
    assert (forall p r0, Request p r0 ∈ Request (make_params st) reply :: evs1 ->
              params_model p = model st
              /\ conversation_turn p = List.length (List.filter is_user (input st))
              /\ reasoning p = _is_reasoning_model (model st)) as Hhead.
    { intros p r0 [[= -> ->]|Hin]%elem_of_cons; [now repeat split|].
      now apply (tools_only_no_request _ _ _ Htools) in Hin. }
    destruct r as [[s|]|e|].
    2:{ intros Hloop. destruct (IH _ _ _ Hloop) as (evs2 & Ht2 & Hall).
        exists ((Request (make_params st) reply :: evs1) ++ evs2).
        rewrite Ht2, Ht, <- app_assoc. split; [reflexivity|].
        intros p r0 [Hin|Hin]%elem_of_app; [now apply Hhead in Hin|].
        rewrite <- Hm, <- Hu. now apply (Hall p r0). }
    all: intros [= <- <-]; eexists; split; [exact Ht|exact Hhead].
Qed.

(** X20.  Every request of one [chat] call carries the agent's model, the
    reasoning flag of that model, and the same [conversation_turn]: the
    number of user messages in the conversation, the new one included. *)
Theorem chat_requests_metadata (fuel : nat) (user_input : string) (st : state)
    (evs : list event) (p : params) (r : reply) :
  trace (snd (chat fuel user_input st)) = trace st ++ evs ->
  Request p r ∈ evs ->
  params_model p = model st
  /\ conversation_turn p = S (List.length (List.filter is_user (input st)))
  /\ reasoning p = _is_reasoning_model (model st).
Proof.
  unfold chat. intros Htrace Hin.
  destruct (loop fuel _) as [o st'] eqn:Hloop.
  apply loop_metadata in Hloop as (evs' & Ht & Hall).
  cbn [snd trace model input] in *.
  assert (evs' = evs) as -> by (rewrite Ht in Htrace; now apply app_inv_head in Htrace).
  destruct (Hall _ _ Hin) as (Hm & Hc & Hr). repeat split; auto.
  rewrite Hc, List.filter_app, length_app. cbn. lia.
Qed.

(** X21.  A turn of the loop ends the chat in one of three ways only: with the
    text of a response that has no function call; with ["Error: ..."] for a
    failure of the service call; or with ["Error: ..."] for the arguments of
    a function call that do not parse.  A tool that fails never ends the
    chat: its error text is the tool's result. *)
Theorem iteration_return_sources (st st' : state) (s : string) :
  iteration st = (Ret (Some s), st') ->
  (exists r c,
      create (session st) (make_params st) = (Respond r, c)
      /\ keep_function_calls (output r) = []
      /\ s = default ""%string (output_text r))
  \/ (exists e c,
        create (session st) (make_params st) = (Fail e, c)
        /\ s = ("Error: " +:+ str_exn e)%string)
  \/ (exists r c before function_call after e,
        create (session st) (make_params st) = (Respond r, c)
        /\ keep_function_calls (output r) = before ++ function_call :: after
        /\ Json.loads (arguments_or_empty function_call) = Raise e
        /\ s = ("Error: " +:+ str_exn e)%string).
Proof.
  unfold iteration, try_except. unfold bind at 1, responses_create at 1.
  destruct (create (session st) (make_params st)) as [reply c].
  destruct reply as [r|e].
  2:{ intros [= <- _]. right; left. now exists e, c. }
  unfold bind at 1, extend_input at 1. cbn [files model input session trace].
  destruct (keep_function_calls (output r)) as [|fc fcs] eqn:Hk.
  { intros [= <- _]. left. now exists r, c. }
  unfold bind at 1.
  match goal with |- context [run_function_calls (fc :: fcs) ?s0] =>
    destruct (run_function_calls (fc :: fcs) s0) as [[results|e|] st2] eqn:Hrun end.
  - unfold bind at 1. destruct results as [|t ts]; intros [= ].
  - apply run_function_calls_raise in Hrun
      as (_ & _ & before & call & after & evs & Hsplit & Hbad & _).
    intros [= <- _]. right; right. exists r, c, before, call, after, e.
    repeat split; congruence.
  - intros [= ].
Qed.

End Runs.

(** ** The further properties at concrete inputs *)

(** X3 at a name that [project_world] does not hold. *)
Lemma read_file_missing_witness :
  node_at project_world ["nope.txt"] = None
  /\ _read_file (exn_text := sample_str) (PStr "nope.txt") project_world
     = (Ret ("File not found: " +:+ "nope.txt"), project_world).
Proof.
  assert (locate project_world "nope.txt" = inr ["nope.txt"]) as Hloc
    by (vm_compute; reflexivity).
  assert (node_at project_world ["nope.txt"] = None) as Hnone
    by (vm_compute; reflexivity).
  split; [exact Hnone|].
  exact (@read_file_missing sample_str project_world "nope.txt" eq_refl eq_refl
           (or_intror (ex_intro _ ["nope.txt"] (conj Hloc Hnone)))).
Defined.

(** X4 at the directory [src]. *)
Lemma read_file_directory_witness :
  file_at project_world "src" = Some Dir
  /\ _read_file (exn_text := sample_str) (PStr "src") project_world
     = (Ret ("Error reading file: " +:+ "[Errno 21] Is a directory: 'src'"), project_world).
Proof.
  assert (file_at project_world "src" = Some Dir) as Hdir by (vm_compute; reflexivity).
  split; [exact Hdir|].
  exact (@read_file_directory sample_str project_world "src" Hdir).
Defined.

(** X5 at [raw.bin], whose one byte is 255. *)
Lemma read_file_undecodable_witness :
  file_at project_world "raw.bin" = Some (File (String "255" ""))
  /\ decode (String "255" "") = None
  /\ _read_file (exn_text := sample_str) (PStr "raw.bin") project_world
     = (Ret ("Error reading file: " +:+ "'utf-8' codec can't decode"), project_world).
Proof.
  assert (file_at project_world "raw.bin" = Some (File (String "255" ""))) as Hfile
    by (vm_compute; reflexivity).
  assert (decode (String "255" "") = None) as Hdec by (vm_compute; reflexivity).
  split; [exact Hfile|]. split; [exact Hdec|].
  exact (@read_file_undecodable sample_str project_world "raw.bin" _ Hfile Hdec).
Defined.



(** X8 at the directory [empty]. *)
Lemma list_files_empty_directory_witness :
  children project_world ["empty"] = []
  /\ _list_files (exn_text := sample_str) (PStr "empty") project_world
     = (Ret ("Empty directory: " +:+ "empty"), project_world).
Proof.
  assert (file_at project_world "empty" = Some Dir) as Hdir by (vm_compute; reflexivity).
  assert (locate project_world "empty" = inr ["empty"]) as Hloc by (vm_compute; reflexivity).
  assert (children project_world ["empty"] = []) as Hnil by (vm_compute; reflexivity).
  split; [exact Hnil|].
  exact (@list_files_empty_directory sample_str project_world "empty" ["empty"]
           Hdir Hloc Hnil).
Defined.

(** X9 at the file [README.md]. *)
Lemma list_files_of_file_witness :
  file_at project_world "README.md" = Some (File "# demo")
  /\ _list_files (exn_text := sample_str) (PStr "README.md") project_world
     = (Ret ("Error listing files: " +:+ "[Errno 20] Not a directory: 'README.md'"),
        project_world).
Proof.
  assert (file_at project_world "README.md" = Some (File "# demo")) as Hfile
    by (vm_compute; reflexivity).
  split; [exact Hfile|].
  exact (@list_files_of_file sample_str project_world "README.md" _ Hfile).
Defined.

(** X10 at [README.md]: [demo] becomes [tutorial]. *)
Lemma edit_file_replaces_witness :
  well_formed project_world = true
  /\ Text.replace "demo" "tutorial" "# demo" = "# tutorial"
  /\ _edit_file (exn_text := sample_str) (PStr "README.md") (PStr "demo") (PStr "tutorial")
       project_world
     = (Ret ("Successfully edited " +:+ "README.md"),
        set_node ["README.md"] (File (Text.replace "demo" "tutorial" "# demo")) project_world)
  /\ file_at (set_node ["README.md"] (File (Text.replace "demo" "tutorial" "# demo"))
                project_world) "README.md"
     = Some (File (Text.replace "demo" "tutorial" "# demo")).
Proof.
  assert (well_formed project_world = true) as Hwf by (vm_compute; reflexivity).
  assert (file_at project_world "README.md" = Some (File "# demo")) as Hfile
    by (vm_compute; reflexivity).
  assert (locate project_world "README.md" = inr ["README.md"]) as Hloc
    by (vm_compute; reflexivity).
  assert (decode "# demo" = Some "# demo") as Hdec by (vm_compute; reflexivity).
  assert ("demo" <> "") as Hne by discriminate.
  assert (Text.contains "demo" "# demo" = true) as Hin by (vm_compute; reflexivity).
  assert (Text.utf8_valid (Text.replace "demo" "tutorial" "# demo") = true) as Hvalid
    by (vm_compute; reflexivity).
  split; [exact Hwf|]. split; [vm_compute; reflexivity|].
  exact (@edit_file_replaces sample_str project_world "README.md" ["README.md"] "# demo"
           "# demo" "demo" "tutorial" Hwf Hfile Hloc Hdec Hne Hin Hvalid).
Defined.

(** X11 at the free name [notes.txt]. *)
Lemma edit_file_creates_witness :
  node_at project_world (cwd project_world ++ ["notes.txt"]) = None
  /\ _edit_file (exn_text := sample_str) (PStr "notes.txt") (PStr "") (PStr "todo")
       project_world
     = (Ret ("Successfully created " +:+ "notes.txt"),
        set_node (cwd project_world ++ ["notes.txt"]) (File "todo") project_world)
  /\ file_at (set_node (cwd project_world ++ ["notes.txt"]) (File "todo") project_world)
       "notes.txt"
     = Some (File "todo").
Proof.
  assert (node_at project_world (cwd project_world ++ ["notes.txt"]) = None) as Hfree
    by (vm_compute; reflexivity).
  assert (node_at project_world (cwd project_world ++ ["notes.txt"]) <> Some Dir) as Hnd
    by (rewrite Hfree; discriminate).
  split; [exact Hfree|].
  exact (@edit_file_creates sample_str project_world "notes.txt" (PStr "") "todo"
           eq_refl eq_refl Hnd (or_introl Hfree) eq_refl).
Defined.

(** X12 at [README.md] with [new_text] = [None]: the file is left empty. *)
Lemma edit_file_failed_write_empties_witness :
  file_at project_world "README.md" = Some (File "# demo")
  /\ exists e,
       _edit_file (exn_text := sample_str) (PStr "README.md") PNone PNone project_world
       = (Ret ("Error editing file: " +:+ sample_str e),
          set_node (cwd project_world ++ ["README.md"]) (File "") project_world)
       /\ file_at (set_node (cwd project_world ++ ["README.md"]) (File "") project_world)
            "README.md"
          = Some (File "").
Proof.
  assert (node_at project_world (cwd project_world ++ ["README.md"]) <> Some Dir) as Hnd
    by (vm_compute; discriminate).
  assert (forall text, PNone = PStr text -> Text.utf8_valid text = false) as Hbad
    by (intros text H; discriminate H).
  split; [vm_compute; reflexivity|].
  exact (@edit_file_failed_write_empties sample_str project_world "README.md" PNone PNone
           eq_refl eq_refl Hnd (or_intror eq_refl) Hbad).
Defined.

(** X13 at [{"path": "src", "new_text": "x"}]. *)
Lemma execute_tool_dispatch_witness :
  let items := [("path", PStr "src"); ("new_text", PStr "x")]%string in
  _execute_tool (exn_text := sample_str) "read_file" (PDict items) project_world
    = _read_file (exn_text := sample_str) (PStr "src") project_world
  /\ _execute_tool (exn_text := sample_str) "list_files" (PDict items) project_world
     = _list_files (exn_text := sample_str) (PStr "src") project_world
  /\ _execute_tool (exn_text := sample_str) "edit_file" (PDict items) project_world
     = _edit_file (exn_text := sample_str) (PStr "src") (PStr "") (PStr "x") project_world.
Proof.
  intros items.
  destruct (@execute_tool_dispatch sample_str items (PStr "src") project_world eq_refl)
    as (Hread & Hlist & Hedit).
  split; [exact Hread|]. split; [exact (Hlist true eq_refl)|].
  exact (Hedit (PStr "x") eq_refl).
Defined.

(** X14 at [list_files] called with [{}]. *)
Lemma execute_tool_missing_key_witness :
  _execute_tool (exn_text := sample_str) "list_files" (PDict []) project_world
  = (Ret ("Error executing " +:+ "list_files" +:+ ": " +:+ "'path'"), project_world).
Proof.
  assert ("list_files" ∈ ["read_file"; "list_files"; "edit_file"]%string) as Hname
    by (right; left).
  destruct (@execute_tool_missing_key sample_str "list_files" (PDict []) project_world Hname)
    as (Hpath & _ & _).
  exact (Hpath [] eq_refl eq_refl).
Defined.

(** X16 at a response with one call, of the undeclared tool [delete_file]. *)
Lemma iteration_pairs_calls_witness :
  let st := fresh_agent [Respond unknown_call] example_world in
  let st' := snd (iteration (exn_text := sample_str) st) in
  exists rsp results evs,
    input st' = input st ++ (OutputItem <$> output rsp) ++ results
    /\ Forall2 answers (keep_function_calls (output rsp)) results
    /\ trace st' = trace st ++ Request (make_params st) (Respond rsp) :: evs
    /\ (tool_runs evs).*1 = name <$> keep_function_calls (output rsp)
    /\ requests evs = [].
Proof.
  intros st st'.
  assert (iteration (exn_text := sample_str) st = (Ret None, st')) as Hit
    by (vm_compute; reflexivity).
  exact (@iteration_pairs_calls sample_str scripted st st' Hit).
Defined.

(** X17 at [read_call] followed by [file_report]. *)
Lemma chat_tool_then_answer_witness :
  let st := fresh_agent [Respond read_call; Respond file_report] project_world in
  let call := function_call_item "call_1" "read_file" (Some (json_object [("path", "README.md")])) in
  let out := ("File contents of README.md:" +:+ Text.nl +:+ "# demo")%string in
  let first := Params [UserMessage "What is in README.md?"] "gpt-4o-mini" 1 false in
  let turns := [UserMessage "What is in README.md?"; OutputItem call;
                FunctionCallOutput "call_1" out] in
  let second := Params turns "gpt-4o-mini" 1 false in
  chat (exn_text := sample_str) 2 "What is in README.md?" st =
    (Returned "README.md holds a title.",
     State "gpt-4o-mini" (turns ++ (OutputItem <$> output file_report))
           ([] : @client scripted) project_world
           ([Request first (Respond read_call);
             ToolRun "read_file" (PDict [("path", PStr "README.md")])]
            ++ [Request second (Respond file_report)])).
Proof.
  intros st call out first turns second.
  assert (Json.loads (arguments_or_empty call) = Ret (PDict [("path", PStr "README.md")]))
    as Hloads by (vm_compute; reflexivity).
  assert (_execute_tool (exn_text := sample_str) (name call)
            (PDict [("path", PStr "README.md")]) (files st) = (Ret out, project_world))
    as Hexec by (vm_compute; reflexivity).
  exact (@chat_tool_then_answer sample_str scripted st "What is in README.md?"
           read_call file_report [Respond file_report] [] call
           (PDict [("path", PStr "README.md")]) out project_world 0
           eq_refl eq_refl Hloads Hexec eq_refl eq_refl).
Defined.

(** X18 at [create_then_malformed]: [notes.txt] has been created, the
    conversation holds no result. *)
Lemma chat_malformed_call_drops_results_witness :
  let st := fresh_agent [Respond create_then_malformed] project_world in
  let create_call := function_call_item "call_1" "edit_file"
                       (Some (json_object [("path", "notes.txt"); ("new_text", "todo")])) in
  let bad_call := function_call_item "call_2" "list_files" (Some "{") in
  let sent := Params [UserMessage "take a note"] "gpt-4o-mini" 1 false in
  let received := State "gpt-4o-mini"
                        ([UserMessage "take a note"] ++ (OutputItem <$> [create_call; bad_call]))
                        ([] : @client scripted) project_world
                        ([] ++ [Request sent (Respond create_then_malformed)]) in
  let st2 := snd (run_function_calls (exn_text := sample_str) [create_call] received) in
  let e := JSONDecodeError "Expecting property name enclosed in double quotes" in
  file_at (files st2) "notes.txt" = Some (File "todo")
  /\ chat (exn_text := sample_str) 1 "take a note" st
     = (Returned ("Error: " +:+ sample_str e), st2)
  /\ input st2 = [UserMessage "take a note"] ++ (OutputItem <$> [create_call; bad_call])
  /\ exists evs,
       trace st2 = trace received ++ evs
       /\ (tool_runs evs).*1 = name <$> [create_call]
       /\ requests evs = [].
Proof.
  intros st create_call bad_call sent received st2 e.
  assert (run_function_calls (exn_text := sample_str) [create_call] received
          = (Ret [FunctionCallOutput "call_1" "Successfully created notes.txt"], st2))
    as Hbefore by (vm_compute; reflexivity).
  assert (Json.loads (arguments_or_empty bad_call) = Raise e) as Hbad
    by (vm_compute; reflexivity).
  split; [vm_compute; reflexivity|].
  exact (@chat_malformed_call_drops_results sample_str scripted st "take a note"
           create_then_malformed [] [create_call] [] bad_call
           [FunctionCallOutput "call_1" "Successfully created notes.txt"] st2 e 0
           eq_refl eq_refl Hbefore Hbad).
Defined.

(** X20 at the second request of a chat that runs one tool. *)
Lemma chat_requests_metadata_witness :
  let st := fresh_agent [Respond unknown_call; Respond greeting] example_world in
  let first := Params [UserMessage "hello"] "gpt-4o-mini" 1 false in
  let second :=
    Params [UserMessage "hello";
            OutputItem (function_call_item "call_1" "delete_file" None);
            FunctionCallOutput "call_1" "Unknown tool: delete_file"]
           "gpt-4o-mini" 1 false in
  let evs := [Request first (Respond unknown_call);
              ToolRun "delete_file" (PDict []);
              Request second (Respond greeting)] in
  trace (snd (chat (exn_text := sample_str) 5 "hello" st)) = trace st ++ evs
  /\ params_model second = model st
  /\ conversation_turn second = S (List.length (List.filter is_user (input st)))
  /\ reasoning second = _is_reasoning_model (model st).
Proof.
  intros st first second evs.
  assert (trace (snd (chat (exn_text := sample_str) 5 "hello" st)) = trace st ++ evs)
    as Htrace by (vm_compute; reflexivity).
  assert (Request second (Respond greeting) ∈ evs) as Hin by (do 2 right; left).
  split; [exact Htrace|].
  exact (@chat_requests_metadata sample_str scripted 5 "hello" st evs second
           (Respond greeting) Htrace Hin).
Defined.

(** X21 at a turn that ends on arguments that are not JSON. *)
Lemma iteration_return_sources_witness :
  let st := State "gpt-4o-mini" [UserMessage "hello"]
                  ([Respond malformed_call] : @client scripted) example_world [] in
  let s := ("Error: " +:+ "Expecting property name enclosed in double quotes")%string in
  (exists r c,
      create (session st) (make_params st) = (Respond r, c)
      /\ keep_function_calls (output r) = []
      /\ s = default ""%string (output_text r))
  \/ (exists e c,
        create (session st) (make_params st) = (Fail e, c)
        /\ s = ("Error: " +:+ sample_str e)%string)
  \/ (exists r c before function_call after e,
        create (session st) (make_params st) = (Respond r, c)
        /\ keep_function_calls (output r) = before ++ function_call :: after
        /\ Json.loads (arguments_or_empty function_call) = Raise e
        /\ s = ("Error: " +:+ sample_str e)%string).
Proof.
  intros st s.
  assert (iteration (exn_text := sample_str) st
          = (Ret (Some s), snd (iteration (exn_text := sample_str) st))) as Hit
    by (vm_compute; reflexivity).
  exact (@iteration_return_sources sample_str scripted st _ s Hit).
Defined.

(** ** Paths the system refuses *)

(** A path with a surrogate that cannot be escaped is refused before any
    lookup: [read_file] and [edit_file] report the encoding error and
    nothing is created; for [os.path.exists] the path does not exist. *)
Lemma unencodable_path_example :
  plain_name lone_surrogate = false
  /\ _read_file (exn_text := sample_str) (PStr lone_surrogate) project_world
     = (Ret "Error reading file: 'utf-8' codec can't encode", project_world)
  /\ _edit_file (exn_text := sample_str) (PStr lone_surrogate) (PStr "") (PStr "x")
       project_world
     = (Ret "Error editing file: 'utf-8' codec can't encode", project_world)
  /\ _list_files (exn_text := sample_str) (PStr lone_surrogate) project_world
     = (Ret ("Path not found: " +:+ lone_surrogate), project_world).
Proof. vm_compute. repeat split. Qed.

(** A name longer than [NAME_MAX] is refused by the directory that would
    hold it. *)
Lemma long_name_example :
  plain_name long_name = false
  /\ locate project_world long_name = inl ENAMETOOLONG
  /\ _read_file (exn_text := sample_str) (PStr long_name) project_world
     = (Ret ("Error reading file: " +:+ sample_str (OSError ENAMETOOLONG long_name)),
        project_world)
  /\ _edit_file (exn_text := sample_str) (PStr long_name) (PStr "") (PStr "x") project_world
     = (Ret ("Error editing file: " +:+ sample_str (OSError ENAMETOOLONG long_name)),
        project_world).
Proof. vm_compute. repeat split. Qed.
